(** * Statil: template compiler and hierarchical renderer

    A shallow embedding of the statil sources
    ([lib/template.js], [lib/methods.js], [src/index.ts]) together with the
    properties of its specification that were checked against them.

    JavaScript strings are sequences of UTF-16 code units; objects are finite
    maps from property names to values; a function that may throw returns a
    [result]; a function that mutates its context object returns the new
    context next to its return value. *)

From Stdlib Require Import NArith ZArith List String Ascii Lia Bool DecimalString.
From stdpp Require Import base option list gmap.
Import ListNotations.

Set Warnings "-register-all".
Set Default Proof Using "Type".

Local Open Scope N_scope.

(* ===================================================================== *)
(** * Strings *)
(* ===================================================================== *)

(** A JavaScript string: its UTF-16 code units. *)
Definition jsstring : Type := list N.

(** The code units of an ASCII literal. *)
Definition str (s : string) : jsstring :=
  List.map N_of_ascii (list_ascii_of_string s).
Arguments str : simpl never.

Definition jsEqb (a b : jsstring) : bool := bool_decide (a = b).

(** [!s] in JavaScript: the empty string is the only falsy string. *)
Definition isEmpty (s : jsstring) : bool :=
  match s with [] => true | _ => false end.

(** [s.slice(a, b)] for [0 <= a], [0 <= b]. *)
Definition slice (s : jsstring) (a b : nat) : jsstring :=
  firstn (b - a) (skipn a s).

(** [s.charCodeAt(i)]; out of range is written as [None] (JS gives NaN). *)
Definition charCodeAt (s : jsstring) (i : nat) : option N := nth_error s i.

(** [s.split(sep)] for a one-unit separator. *)
Fixpoint splitOn (sep : N) (s : jsstring) : list jsstring :=
  match s with
  | [] => [[]]
  | c :: s' =>
      if c =? sep then [] :: splitOn sep s'
      else match splitOn sep s' with
           | p :: ps => (c :: p) :: ps
           | [] => [[c]]
           end
  end.

(** [parts.join(sep)]. *)
Fixpoint joinWith (sep : jsstring) (parts : list jsstring) : jsstring :=
  match parts with
  | [] => []
  | [p] => p
  | p :: ps => p ++ sep ++ joinWith sep ps
  end.

(** [s.startsWith(p)], returning what follows the prefix. *)
Fixpoint stripPrefix (p s : jsstring) : option jsstring :=
  match p, s with
  | [], _ => Some s
  | a :: p', b :: s' => if a =? b then stripPrefix p' s' else None
  | _ :: _, [] => None
  end.

(** The suffix left after the longest prefix whose elements satisfy [f]. *)
Fixpoint dropWhile {A} (f : A -> bool) (l : list A) : list A :=
  match l with
  | [] => []
  | x :: l' => if f x then dropWhile f l' else l
  end.

Definition slash : N := 47.
Definition dot : N := 46.

(* ===================================================================== *)
(** * Values, errors *)
(* ===================================================================== *)

(** The numbers of the model: the safe integers, which a JavaScript number
    holds exactly and prints with all their digits. Fractions, integers
    beyond [Number.MAX_SAFE_INTEGER], NaN and the infinities are not values
    of the model. *)
Definition maxSafeInteger : Z := 9007199254740991.

Record safeInteger : Type := Safe {
  intValue : Z;
  intSafe : (Z.abs intValue <=? maxSafeInteger)%Z = true
}.

(** JavaScript values as they occur in metadata and render contexts.
    [VSelf] stands for the context's reference to itself ([data.$ = data]),
    a cycle that a tree of values cannot hold otherwise. *)
Inductive value : Type :=
| VUndefined
| VNull
| VBool (b : bool)
| VNum (n : safeInteger)
| VStr (s : jsstring)
| VArr (xs : list value)
| VObj (o : gmap jsstring value)
| VSelf.

(** A plain object: property names to values. *)
Abbreviation obj := (gmap jsstring value).

Inductive error : Type :=
| ValidationError          (* statics.validate... *)
| TypeError                (* thrown by the path module on a non-string *)
| SyntaxError              (* malformed code or pattern *)
| DuplicateMeta (path : jsstring)
| EchoError                (* statics.echoLegend *)
| HostError (tag : N).     (* anything thrown by template code *)

Inductive result (A : Type) : Type :=
| Ok (a : A)
| Throw (e : error).
Arguments Ok {A} a.
Arguments Throw {A} e.

Definition bind {A B} (r : result A) (k : A -> result B) : result B :=
  match r with
  | Ok a => k a
  | Throw e => Throw e
  end.

Declare Scope js_scope.
Delimit Scope js_scope with js.
Notation "x <- e ;; k" := (bind e (fun x => k))
  (at level 100, e at next level, right associativity) : js_scope.
Local Open Scope js_scope.

(** Truthiness ([if (v)], [!v], [a || b]). *)
Definition truthy (v : value) : bool :=
  match v with
  | VUndefined | VNull => false
  | VBool b => b
  | VNum n => negb (Z.eqb (intValue n) 0)
  | VStr s => negb (isEmpty s)
  | VArr _ | VObj _ | VSelf => true
  end.

(** [v == null]: null or undefined. *)
Definition isNullish (v : value) : bool :=
  match v with
  | VUndefined | VNull => true
  | _ => false
  end.

(** lodash's [_.isObject]. *)
Definition isObject (v : value) : bool :=
  match v with
  | VArr _ | VObj _ | VSelf => true
  | _ => false
  end.

(** [typeof v === 'string']. *)
Definition isString (v : value) : bool :=
  match v with
  | VStr _ => true
  | _ => false
  end.

(** [o[k]] on an object: a missing property reads as undefined. *)
Definition getProp (o : obj) (k : jsstring) : value :=
  default VUndefined (o !! k).

(** [v.k] on any value. Only plain objects carry named properties in this
    model: reading one from a primitive or an array gives undefined. *)
Definition getField (v : value) (k : jsstring) : value :=
  match v with
  | VObj o => getProp o k
  | _ => VUndefined
  end.

(** [_.assign(target, source)]: the source's own properties are written over
    the target's; a source that is not a plain object contributes none. *)
Definition assign (target : obj) (source : value) : obj :=
  match source with
  | VObj o => o ∪ target
  | _ => target
  end.

(* ===================================================================== *)
(** * The path module (POSIX flavour of Node's [path])

    statil calls [dirname], [basename], [join], [relative] and [parse] of the
    platform's path module. They are modelled here on strings of code units:
    [dirname] and [basename] scan from the end of the path, [normalize],
    [join], [resolve] and [relative] work on the '/'-separated parts. *)
(* ===================================================================== *)

Module pt.

Definition isAbsolute (path : jsstring) : bool :=
  match path with
  | c :: _ => c =? slash
  | [] => false
  end.

Definition lastIsSlash (path : jsstring) : bool :=
  match last path with
  | Some c => c =? slash
  | None => false
  end.

(** One step of [normalizeArray]: empty parts and "." are dropped, ".."
    removes the part before it, or is kept when nothing is left to remove
    and the path is relative. *)
Definition normalizeStep (allowAboveRoot : bool)
    (res : list jsstring) (p : jsstring) : list jsstring :=
  if isEmpty p || jsEqb p (str ".") then res
  else if jsEqb p (str "..") then
    match last res with
    | Some l =>
        if negb (jsEqb l (str "..")) then removelast res
        else if allowAboveRoot then res ++ [p] else res
    | None => if allowAboveRoot then res ++ [p] else res
    end
  else res ++ [p].

Definition normalizeArray (parts : list jsstring) (allowAboveRoot : bool)
    : list jsstring :=
  fold_left (normalizeStep allowAboveRoot) parts [].

Definition normalize (path : jsstring) : jsstring :=
  let isAbs := isAbsolute path in
  let trailingSlash := lastIsSlash path in
  let body := joinWith [slash] (normalizeArray (splitOn slash path) (negb isAbs)) in
  let body := if isEmpty body && negb isAbs then str "." else body in
  let body := if negb (isEmpty body) && trailingSlash then body ++ [slash] else body in
  (if isAbs then [slash] else []) ++ body.

(** [join(a, b)] on strings: the non-empty arguments are joined with '/'
    and the result is normalised. *)
Definition joinStrings (segments : list jsstring) : jsstring :=
  normalize
    (joinWith [slash] (List.filter (fun s => negb (isEmpty s)) segments)).

(** [join(a, b)] as statil calls it, with the second argument read from a
    context: a non-string argument is a TypeError. *)
Definition join (a : jsstring) (b : value) : result jsstring :=
  match b with
  | VStr s => Ok (joinStrings [a; s])
  | _ => Throw TypeError
  end.

(** [resolve(path)] against the working directory [cwd]. *)
Definition resolve (cwd path : jsstring) : jsstring :=
  let '(full, isAbs) :=
    if isEmpty path then (cwd ++ [slash], isAbsolute cwd)
    else if isAbsolute path then (path ++ [slash], true)
    else (cwd ++ [slash] ++ path ++ [slash], isAbsolute cwd) in
  let body := joinWith [slash] (normalizeArray (splitOn slash full) (negb isAbs)) in
  let out := (if isAbs then [slash] else []) ++ body in
  if isEmpty out then str "." else out.

(** [trim]: the parts without leading and trailing empty strings. *)
Definition trim (parts : list jsstring) : list jsstring :=
  rev (dropWhile isEmpty (rev (dropWhile isEmpty parts))).

(** The number of leading parts two part lists have in common. *)
Fixpoint samePartsLength (a b : list jsstring) : nat :=
  match a, b with
  | x :: a', y :: b' => if jsEqb x y then S (samePartsLength a' b') else O
  | _, _ => O
  end.

(** [relative(from, to)]: one ".." for every part of [from] below the
    common ancestor, then the parts of [to] below it. *)
Definition relative (cwd from to : jsstring) : jsstring :=
  let fromParts := trim (splitOn slash (skipn 1 (resolve cwd from))) in
  let toParts := trim (splitOn slash (skipn 1 (resolve cwd to))) in
  let same := samePartsLength fromParts toParts in
  let ups := List.map (fun _ => str "..") (skipn same fromParts) in
  joinWith [slash] (ups ++ skipn same toParts).

(** The loop of [dirname]: [for (i = length - 1; i >= 1; --i)], looking for
    the last '/' that has a non-'/' after it. The argument [i] is the
    number of indices still to visit, so the index visited is [i] itself. *)
Fixpoint dirnameEnd (path : jsstring) (i : nat) (matchedSlash : bool)
    : option nat :=
  match i with
  | O => None
  | S i' =>
      if bool_decide (charCodeAt path i = Some slash) then
        if negb matchedSlash then Some i
        else dirnameEnd path i' matchedSlash
      else dirnameEnd path i' false
  end.

Definition dirname (path : jsstring) : jsstring :=
  if isEmpty path then str "."
  else
    let hasRoot := isAbsolute path in
    match dirnameEnd path (length path - 1) true with
    | None => if hasRoot then str "/" else str "."
    | Some e => if hasRoot && Nat.eqb e 1 then str "//" else slice path 0 e
    end.

(** The loop of [basename]: [for (i = length - 1; i >= 0; --i)]; here [i]
    counts the indices still to visit, the index visited is [i - 1].
    Returns [(start, end)]; [end] is [None] while no character other than
    '/' was seen. *)
Fixpoint basenameBounds (path : jsstring) (i : nat) (matchedSlash : bool)
    (e : option nat) : nat * option nat :=
  match i with
  | O => (O, e)
  | S i' =>
      if bool_decide (charCodeAt path i' = Some slash) then
        if negb matchedSlash then (i, e)
        else basenameBounds path i' matchedSlash e
      else
        match e with
        | None => basenameBounds path i' false (Some i)
        | Some _ => basenameBounds path i' matchedSlash e
        end
  end.

Definition basename (path : jsstring) : jsstring :=
  match basenameBounds path (length path) true None with
  | (_, None) => []
  | (start, Some e) => slice path start e
  end.

(** The index of the last '.' of a name, if any. *)
Fixpoint lastDot (name : jsstring) (i : nat) : option nat :=
  match name with
  | [] => None
  | c :: name' =>
      match lastDot name' (S i) with
      | Some j => Some j
      | None => if c =? dot then Some i else None
      end
  end.

(** [parse(path).ext]: the last component from its last '.', unless that
    '.' opens the component or the component is "..". *)
Definition ext (path : jsstring) : jsstring :=
  let base := basename path in
  if jsEqb base (str "..") then []
  else match lastDot base 0 with
       | Some (S j) => skipn (S j) base
       | _ => []
       end.

End pt.

(* ===================================================================== *)
(** * The regular expressions and string literals of [lib/template.js]

    [compileTemplate] relies on two services of the JavaScript engine: the
    regular expression [reDelimiters] that [String.prototype.replace] scans
    the source with, and the reading of the single-quoted string literals
    that the generated code contains. Both are written out here. *)
(* ===================================================================== *)

(** [\s] of JavaScript regular expressions. *)
Definition isSpace (c : N) : bool :=
  (9 <=? c) && (c <=? 13) || (c =? 32) || (c =? 160) || (c =? 5760)
  || (8192 <=? c) && (c <=? 8202) || (c =? 8232) || (c =? 8233)
  || (c =? 8239) || (c =? 8287) || (c =? 12288) || (c =? 65279).

(** [\s*close] at the head of [t]: what follows the closing mark. The closing
    marks do not start with white space, so the greedy [\s*] never has to
    give anything back. *)
Definition closes (cl t : jsstring) : option jsstring :=
  stripPrefix cl (dropWhile isSpace t).

(** [([\s\S]+?)\s*close]: the shortest non-empty capture after which optional
    white space and the closing mark follow. Returns the capture and the rest
    of the input after the match. *)
Fixpoint lazyCapture (cl captured t : jsstring) : option (jsstring * jsstring) :=
  match t with
  | [] => None
  | c :: t' =>
      match closes cl t' with
      | Some rest => Some (captured ++ [c], rest)
      | None => lazyCapture cl (captured ++ [c]) t'
      end
  end.

(** [\s*([\s\S]+?)\s*close]: the leading [\s*] is greedy and gives white
    space back one unit at a time when the rest does not match. *)
Fixpoint afterOpen (cl t : jsstring) : option (jsstring * jsstring) :=
  match t with
  | [] => None
  | c :: t' =>
      if isSpace c then
        match afterOpen cl t' with
        | Some r => Some r
        | None => lazyCapture cl [] t
        end
      else lazyCapture cl [] t
  end.

(** [open\s*([\s\S]+?)\s*close] anchored at the head of [s]. *)
Definition matchDelimiter (op cl s : jsstring) : option (jsstring * jsstring) :=
  match stripPrefix op s with
  | Some t => afterOpen cl t
  | None => None
  end.

(** [defaultSettings.reExpression] and [defaultSettings.reStatement]. *)
Definition reExpression : jsstring -> option (jsstring * jsstring) :=
  matchDelimiter (str "{{") (str "}}").
Definition reStatement : jsstring -> option (jsstring * jsstring) :=
  matchDelimiter (str "<<") (str ">>").

(** What the callback of [string.replace(reDelimiters, ...)] receives. *)
Record rmatch : Type := {
  m_match : jsstring;
  m_expressionValue : option jsstring;
  m_statementValue : option jsstring;
  m_offset : nat
}.

(** The successive matches of [reExpression|reStatement|$] from [offset] on,
    [s] being the input from there. A delimiter match consumes at least its
    opening mark; the empty match of [$] at the end of input is the last. *)
Fixpoint matchesFrom (fuel offset : nat) (s : jsstring) : list rmatch :=
  match fuel with
  | O => []
  | S fuel' =>
      match reExpression s with
      | Some (e, rest) =>
          let n := (length s - length rest)%nat in
          {| m_match := firstn n s; m_expressionValue := Some e;
             m_statementValue := None; m_offset := offset |}
            :: matchesFrom fuel' (offset + n) rest
      | None =>
          match reStatement s with
          | Some (c, rest) =>
              let n := (length s - length rest)%nat in
              {| m_match := firstn n s; m_expressionValue := None;
                 m_statementValue := Some c; m_offset := offset |}
                :: matchesFrom fuel' (offset + n) rest
          | None =>
              match s with
              | [] => [ {| m_match := []; m_expressionValue := None;
                           m_statementValue := None; m_offset := offset |} ]
              | _ :: s' => matchesFrom fuel' (S offset) s'
              end
          end
      end
  end.

Definition reDelimitersMatches (string : jsstring) : list rmatch :=
  matchesFrom (S (length string)) 0 string.

(** Whether one of the two delimiter patterns matches somewhere in [s]. *)
Fixpoint hasDelimiter (s : jsstring) : bool :=
  match reExpression s, reStatement s with
  | None, None =>
      match s with
      | [] => false
      | _ :: s' => hasDelimiter s'
      end
  | _, _ => true
  end.

Definition hexDigit (c : N) : option N :=
  if (48 <=? c) && (c <=? 57) then Some (c - 48)
  else if (97 <=? c) && (c <=? 102) then Some (c - 87)
  else if (65 <=? c) && (c <=? 70) then Some (c - 55)
  else None.

Definition isLineTerminator (c : N) : bool :=
  (c =? 10) || (c =? 13) || (c =? 8232) || (c =? 8233).

(** The string value of the body of a single-quoted string literal in strict
    code, or [None] when the characters do not form one: a bare quote ends
    the literal early, a bare line terminator or a malformed escape is a
    syntax error. *)
Fixpoint readLiteral (s : jsstring) : option jsstring :=
  match s with
  | [] => Some []
  | c :: s1 =>
      if c =? 92 then
        match s1 with
        | [] => None
        | e :: s2 =>
            if e =? 117 then
              match s2 with
              | a :: b :: c :: d :: s3 =>
                  match hexDigit a, hexDigit b, hexDigit c, hexDigit d with
                  | Some a, Some b, Some c, Some d =>
                      option_map (cons (((a * 16 + b) * 16 + c) * 16 + d))
                                 (readLiteral s3)
                  | _, _, _, _ => None
                  end
              | _ => None
              end
            else if e =? 120 then
              match s2 with
              | a :: b :: s3 =>
                  match hexDigit a, hexDigit b with
                  | Some a, Some b =>
                      option_map (cons (a * 16 + b)) (readLiteral s3)
                  | _, _ => None
                  end
              | _ => None
              end
            else if (49 <=? e) && (e <=? 57) then None
            else if e =? 48 then
              match s2 with
              | n :: _ =>
                  if (48 <=? n) && (n <=? 57) then None
                  else option_map (cons 0) (readLiteral s2)
              | [] => option_map (cons 0) (readLiteral s2)
              end
            else if isLineTerminator e then readLiteral s2
            else
              let c := if e =? 110 then 10 else if e =? 114 then 13
                       else if e =? 116 then 9 else if e =? 98 then 8
                       else if e =? 102 then 12 else if e =? 118 then 11
                       else e in
              option_map (cons c) (readLiteral s2)
        end
      else if (c =? 39) || isLineTerminator c then None
      else option_map (cons c) (readLiteral s1)
  end.

(** The decimal digits of a safe integer, as [String(n)] prints it. *)
Definition decimal (n : Z) : jsstring :=
  str (DecimalString.NilZero.string_of_int (Z.to_int n)).

(** The string a value contributes to [__out += val]. *)
Fixpoint toStr (v : value) : jsstring :=
  match v with
  | VUndefined => str "undefined"
  | VNull => str "null"
  | VBool true => str "true"
  | VBool false => str "false"
  | VNum n => decimal (intValue n)
  | VStr s => s
  | VArr xs =>
      joinWith (str ",")
        (List.map (fun x => if isNullish x then [] else toStr x) xs)
  | VObj _ | VSelf => str "[object Object]"
  end.

(* ===================================================================== *)
(** * [lib/template.js]: escaping and the generated code *)
(* ===================================================================== *)

(** [reSpecialChars]: the characters that cannot stand in a string literal. *)
Definition reSpecialChars (c : N) : bool :=
  (c =? 39) || (c =? 10) || (c =? 13) || (c =? 8232) || (c =? 8233) || (c =? 92).

(** [specialEscapes]: what follows the backslash for each of them. *)
Definition specialEscapes (c : N) : option jsstring :=
  if c =? 92 then Some (str "\")
  else if c =? 39 then Some (str "'")
  else if c =? 10 then Some (str "n")
  else if c =? 13 then Some (str "r")
  else if c =? 8232 then Some (str "u2028")
  else if c =? 8233 then Some (str "u2029")
  else None.

Definition escapeSpecialChar (char : N) : jsstring :=
  match specialEscapes char with
  | Some e => if isEmpty e then [char] else 92 :: e
  | None => [char]
  end.

(** [content.replace(reSpecialChars, escapeSpecialChar)]. *)
Definition replaceSpecialChars (content : jsstring) : jsstring :=
  flat_map (fun c => if reSpecialChars c then escapeSpecialChar c else [c])
           content.

(** The lines of [codeBody]: [__append('content')], a statement given as it
    stands, and [__append(expression)]. *)
Inductive instr : Type :=
| AppendLiteral (content : jsstring)
| Statement (statementValue : jsstring)
| AppendExpression (expressionValue : jsstring).

(** The callback of [string.replace] in [compileTemplate]; the state is
    [index] and [codeBody]. *)
Definition onMatch (string : jsstring) (st : nat * list instr) (m : rmatch)
    : nat * list instr :=
  let '(index, codeBody) := st in
  let content := replaceSpecialChars (slice string index (m_offset m)) in
  let codeBody :=
    if isEmpty content then codeBody else codeBody ++ [AppendLiteral content] in
  let codeBody :=
    match m_statementValue m with
    | Some s => if isEmpty s then codeBody else codeBody ++ [Statement s]
    | None => codeBody
    end in
  let codeBody :=
    match m_expressionValue m with
    | Some e => if isEmpty e then codeBody else codeBody ++ [AppendExpression e]
    | None => codeBody
    end in
  ((m_offset m + length (m_match m))%nat, codeBody).

(** [codeBody] once [string.replace] has visited every match. *)
Definition codeBodyOf (string : jsstring) : list instr :=
  snd (fold_left (onMatch string) (reDelimitersMatches string) (O, [])).

(** The line of [codeBody] for a literal segment, if the segment is not
    empty. *)
Definition literalOf (segment : jsstring) : list instr :=
  if isEmpty (replaceSpecialChars segment) then []
  else [AppendLiteral (replaceSpecialChars segment)].

(** What one call of the callback adds to [codeBody]. *)
Definition emitted (string : jsstring) (index : nat) (m : rmatch) : list instr :=
  literalOf (slice string index (m_offset m))
  ++ match m_statementValue m with
     | Some s => if isEmpty s then [] else [Statement s]
     | None => []
     end
  ++ match m_expressionValue m with
     | Some e => if isEmpty e then [] else [AppendExpression e]
     | None => []
     end.








(** [function __append(val) {if (val != null) __out += val}]. *)
Definition __append (val : value) (__out : jsstring) : jsstring :=
  if isNullish val then __out else __out ++ toStr val.

(** What the engine makes of the argument of a line [__append(e)]. The
    fragment is evaluated in the scope of the compiled function, so it sees
    and may assign [$] and [__out]: [Evaluated] gives its value with the
    context and the output as the evaluation leaves them. A fragment that
    does anything else to the run (it is not one expression, it assigns
    [__append], it makes [$] something that is not an object) is
    [Diverted]: the engine's own account of how the run ends, given the
    lines that follow. *)
Inductive evaluation : Type :=
| Evaluated (val : value) (ctx : obj) (__out : jsstring)
| Diverted (k : list instr -> result jsstring).

Definition literalReads (i : instr) : bool :=
  match i with
  | AppendLiteral c => match readLiteral c with Some _ => true | None => false end
  | _ => true
  end.

Definition isLiteral (i : instr) : bool :=
  match i with AppendLiteral _ => true | _ => false end.

(* ===================================================================== *)
(** * The statil instance and [statics] *)
(* ===================================================================== *)

(** A compiled template, called as [template.call(this, data)]: its return
    value and the context as the call leaves it, or what it throws. *)
Definition template : Type := obj -> result (value * obj).

(** The fields of the [Statil] class. [templates] keeps the order in which
    its keys were first written; [forInKeys] gives the order in which
    [for ... in] visits them. *)
Record Statil : Type := {
  templates : list (jsstring * template);
  meta : gmap jsstring value;
  rename : option (jsstring -> option jsstring)
}.

Fixpoint lookupKey {A} (k : jsstring) (l : list (jsstring * A)) : option A :=
  match l with
  | [] => None
  | (k', v) :: l' => if jsEqb k k' then Some v else lookupKey k l'
  end.

(** [o[k] = v] on an ordered object: an existing key keeps its place. *)
Fixpoint setKey {A} (k : jsstring) (v : A) (l : list (jsstring * A))
    : list (jsstring * A) :=
  match l with
  | [] => [(k, v)]
  | (k', v') :: l' => if jsEqb k k' then (k, v) :: l' else (k', v') :: setKey k v l'
  end.

(** ** The order in which the keys of an object are enumerated

    [for ... in] and [Object.keys] give the keys that are array indices
    first, in ascending numeric order, and then the other keys in the order
    in which they were first written. *)

Definition isDigit (c : N) : bool := (48 <=? c) && (c <=? 57).

Definition digitsValue (s : jsstring) : N :=
  fold_left (fun acc c => acc * 10 + (c - 48)) s 0.

(** An array index: the canonical decimal form of an integer below
    [2^32 - 1]. *)
Definition arrayIndex (k : jsstring) : option N :=
  match k with
  | [] => None
  | c :: rest =>
      if forallb isDigit k && (negb (c =? 48) || isEmpty rest)
         && (digitsValue k <? 4294967295)
      then Some (digitsValue k)
      else None
  end.

Fixpoint insertIndex (x : N * jsstring) (l : list (N * jsstring))
    : list (N * jsstring) :=
  match l with
  | [] => [x]
  | y :: l' => if fst x <=? fst y then x :: l else y :: insertIndex x l'
  end.

Definition sortIndices (l : list (N * jsstring)) : list (N * jsstring) :=
  fold_right insertIndex [] l.

(** The order of enumeration of keys given in the order of first writing. *)
Definition enumerationOrder (keys : list jsstring) : list jsstring :=
  List.map snd
    (sortIndices
       (flat_map (fun k => match arrayIndex k with
                           | Some i => [(i, k)]
                           | None => []
                           end) keys))
  ++ List.filter (fun k => match arrayIndex k with
                           | Some _ => false
                           | None => true
                           end) keys.

(** [for (const k in o)] on an ordered object. *)
Definition forInKeys {A} (l : list (jsstring * A)) : list jsstring :=
  enumerationOrder (List.map fst l).

(** The values of a mapping as [_.find] goes through them. A mapping of
    this model keeps no record of the order in which its keys were written:
    after the array indices, the other keys come in the order of the map's
    own listing. The result of a search depends on that order only when
    several values match. *)
Definition ownValues (o : gmap jsstring value) : list value :=
  omap (fun k => o !! k) (enumerationOrder (List.map fst (map_to_list o))).

Module statics.

(** Modelled from the spec: [statics.Hash], the map type without inherited
    properties; [new Hash(attrs)] holds the own properties of [attrs] and
    nothing when [attrs] is not an object. *)
Definition Hash (attrs : value) : obj :=
  match attrs with
  | VObj o => o
  | _ => ∅
  end.

(** Modelled from the spec: [statics.validateTruthyString], which rejects
    an empty string where a non-empty one is required. The argument is a
    string by its type here. *)
Definition validateTruthyString (s : jsstring) : result unit :=
  if isEmpty s then Throw ValidationError else Ok tt.

(** Modelled from the spec: [statics.validateTruthyString] on a value read
    from metadata, which may be of any type. *)
Definition validateTruthyStringValue (v : value) : result jsstring :=
  match v with
  | VStr s => if isEmpty s then Throw ValidationError else Ok s
  | _ => Throw ValidationError
  end.

(** Modelled from the spec: [statics.validateWritable], which rejects a
    non-object where a mutable context is required. *)
Definition validateWritable (data : value) : result obj :=
  match data with
  | VObj o => Ok o
  | VArr _ | VSelf => Ok ∅
  | _ => Throw ValidationError
  end.

(** Modelled from the spec: [statics.transclude], the passthrough renderer
    whose output is the current [$content]. *)
Definition transclude : template :=
  fun data => Ok (getProp data (str "$content"), data).

Definition hasName (v : value) : bool :=
  match v with
  | VObj o => match o !! str "name" with Some _ => true | None => false end
  | _ => false
  end.

(** Modelled from the spec: [statics.echoLegend]. [legend.echo] must name a
    non-empty sequence of the metadata whose elements all have a [name];
    the result has one legend per element, the element's fields on top of
    the base legend's. *)
Definition echoLegend (meta legend : value) : result (list value) :=
  match getField legend (str "echo") with
  | VStr group =>
      match getField meta group with
      | VArr (x :: xs) =>
          if forallb hasName (x :: xs)
          then Ok (List.map (fun e => VObj (assign (Hash legend) e)) (x :: xs))
          else Throw EchoError
      | _ => Throw EchoError
      end
  | _ => Throw EchoError
  end.

End statics.

(** [_.omit(legend)] without keys to omit: a copy in which inherited
    properties have become own ones. Objects have only own properties here. *)
Definition omit (legend : value) : value := legend.

(** [_.find(files, {name: name})]: the first element of a sequence, or
    the first value of a mapping, that is an object whose [name] is the
    given string. A string holds characters, which have no [name], and any
    other [files] holds nothing to search. *)
Definition matchesName (name : jsstring) (v : value) : bool :=
  match getField v (str "name") with
  | VStr s => jsEqb s name
  | _ => false
  end.

Definition findByName (files : value) (name : jsstring) : value :=
  match files with
  | VArr xs => default VUndefined (List.find (matchesName name) xs)
  | VObj o => default VUndefined (List.find (matchesName name) (ownValues o))
  | _ => VUndefined
  end.

(** A part of a normal path: not empty, without '/'. *)
Definition goodPart (p : jsstring) : Prop := p <> [] /\ ~ In slash p.

(** A plain file name: not empty, without '/', and neither "." nor "..". *)
Definition isPlainName (n : jsstring) : bool :=
  negb (isEmpty n) && negb (existsb (N.eqb slash) n)
  && negb (jsEqb n (str ".")) && negb (jsEqb n (str "..")).

(** What [normalize] makes of a directory in front of a plain name. *)
Definition dirPrefix (a : jsstring) : jsstring :=
  (if pt.isAbsolute a then [slash] else [])
  ++ match pt.normalizeArray (splitOn slash a) (negb (pt.isAbsolute a)) with
     | [] => []
     | res => joinWith [slash] res ++ [slash]
     end.

(** A value used as a writable object: its own named properties. *)
Definition ownProps (data : value) : obj :=
  match data with
  | VObj o => o
  | _ => ∅
  end.

(** [if (!_.isObject(data)) data = new Hash()]. *)
Definition orNewHash (data : value) : value :=
  if isObject data then data else VObj (statics.Hash VUndefined).

(** [new Statil(options)]: empty registries. *)
Definition newStatil (rename : option (jsstring -> option jsstring)) : Statil :=
  {| templates := []; meta := ∅; rename := rename |}.

Section Statil.

(** ** What statil takes from its environment *)

(** Evaluation of an expression fragment in the scope of the compiled
    function, where [$] is the context and [__out] the output written so
    far, and of a code body that contains statement fragments: the work of
    the JavaScript engine behind [Function(...)]. *)
Variable evalExpression : jsstring -> obj -> jsstring -> result evaluation.
Variable hostParses : list instr -> bool.
Variable hostRun : list instr -> obj -> jsstring -> result jsstring.

(** [statics.split] and [statics.stripExt], whose rules the specification
    leaves to the path utilities. *)
Variable split : jsstring -> list jsstring.
Variable stripExt : jsstring -> jsstring.

(** [process.cwd()], [yaml.safeLoad], lodash's [_.template] and the
    regular expression test behind [String.prototype.match]. *)
Variable cwd : jsstring.
Variable safeLoad : jsstring -> result value.
Variable lodashTemplate : jsstring -> Statil -> result template.
Variable regexpTest : jsstring -> jsstring -> result bool.

(** ** [lib/template.js] *)

(** The body of [compiledTemplate] after its first three lines: the lines
    of [codeBody] in order, then [return __out]. From the first statement
    fragment on, the rest of the body is the engine's to run. *)
Fixpoint run (codeBody : list instr) (ctx : obj) (__out : jsstring)
    : result jsstring :=
  match codeBody with
  | [] => Ok __out
  | AppendLiteral content :: rest =>
      match readLiteral content with
      | Some s => run rest ctx (__append (VStr s) __out)
      | None => Throw SyntaxError
      end
  | AppendExpression e :: rest =>
      r <- evalExpression e ctx __out;;
      match r with
      | Evaluated val ctx' __out' => run rest ctx' (__append val __out')
      | Diverted k => k rest
      end
  | Statement _ :: _ => hostRun codeBody ctx __out
  end.

(** Whether [Function(['__context'], code)] accepts the code: every string
    literal must read, and a body with fragments of template code must
    parse. *)
Definition compiles (codeBody : list instr) : bool :=
  forallb literalReads codeBody
  && (forallb isLiteral codeBody || hostParses codeBody).

(** [compileTemplate(string, {context})] with the default delimiters and
    context name. The function returned takes the render context. *)
Definition compileTemplate (string : jsstring) (context : obj)
    : result (value -> result jsstring) :=
  let codeBody := codeBodyOf string in
  if compiles codeBody then
    Ok (fun ctx =>
          run codeBody (assign (assign ∅ (VObj context)) ctx) [])
  else Throw SyntaxError.

(** ** [src/index.ts]: pathing *)

Definition metaAtPath (this : Statil) (path : jsstring) : value :=
  let dirname :=
    if pt.lastIsSlash path then removelast path else pt.dirname path in
  getProp (meta this) dirname.

Definition fileLegend (this : Statil) (path : jsstring) : value :=
  let meta := metaAtPath this path in
  if truthy meta
  then findByName (getField meta (str "files")) (pt.basename path)
  else VUndefined.

(** ** [lib/methods.js] *)

Definition locals (this : Statil) (path : jsstring) (data : value)
    : result obj :=
  data <- statics.validateWritable data;;
  let data :=
    if isString (getProp data (str "$content")) then data
    else <[str "$content" := VStr []]> data in
  let data :=
    if isString (getProp data (str "$title")) then data
    else <[str "$title" := VStr []]> data in
  let data := <[str "$" := VSelf]> data in
  let meta := metaAtPath this path in
  let data := if truthy meta then <[str "$meta" := meta]> data else data in
  let legend := fileLegend this path in
  Ok (if truthy legend then assign data legend else data).

Definition renderOne (this : Statil) (path : jsstring) (data : value)
    : result (value * obj) :=
  _ <- statics.validateTruthyString path;;
  let template :=
    default statics.transclude (lookupKey (stripExt path) (templates this)) in
  let data := orNewHash data in
  data <- locals this path data;;
  template data.

(** One pass of the loop of [renderThrough]. *)
Definition renderLevel (this : Statil) (compoundedPath : jsstring)
    (data : obj) : result obj :=
  r <- renderOne this compoundedPath (VObj data);;
  Ok (<[str "$content" := fst r]> (snd r)).

(** [_.eachRight(compounded, ...)]: from the last path to the first. *)
Definition eachRight (this : Statil) (compounded : list jsstring)
    (data : obj) : result obj :=
  fold_right (fun compoundedPath acc =>
                data <- acc;; renderLevel this compoundedPath data)
             (Ok data) compounded.

Definition renderThrough (this : Statil) (path : jsstring) (data : value)
    : result (value * obj) :=
  _ <- statics.validateTruthyString path;;
  let data := ownProps (orNewHash data) in
  data <- eachRight this (split path) data;;
  Ok (getProp data (str "$content"), data).

(** The first half of [renderTemplate]: the locals clones, one per
    sublegend when the legend has an [echo] option. *)
Definition echoDatas (this : Statil) (path : jsstring) (data : value)
    : result (list obj) :=
  let legend := fileLegend this path in
  let data := assign (statics.Hash data) legend in
  let data := <[str "name" := VStr (pt.basename path)]> data in
  if truthy legend && truthy (getField legend (str "echo")) then
    legends <- statics.echoLegend (metaAtPath this path) legend;;
    Ok (List.map (fun legend =>
                    assign (statics.Hash (VObj data)) (omit legend))
                 legends)
  else Ok [data].

(** [data.$path = pt.join(pt.dirname(path), data.name)]. *)
Definition withEchoPath (path : jsstring) (data : obj)
    : result (jsstring * obj) :=
  echoPath <- pt.join (pt.dirname path) (getProp data (str "name"));;
  Ok (echoPath, <[str "$path" := VStr echoPath]> data).

(** [echoPath = this.rename(echoPath) || echoPath] when [rename] is a
    function. *)
Definition renamed (this : Statil) (echoPath : jsstring) : jsstring :=
  match rename this with
  | Some f =>
      match f echoPath with
      | Some p => if isEmpty p then echoPath else p
      | None => echoPath
      end
  | None => echoPath
  end.

(** The body of the loop over the locals clones. *)
Definition renderEcho (this : Statil) (path : jsstring) (buffer : obj)
    (data : obj) : result obj :=
  pd <- withEchoPath path data;;
  r <- renderThrough this path (VObj (snd pd));;
  Ok (<[renamed this (fst pd) := fst r]> buffer).

Definition renderTemplate (this : Statil) (path : jsstring) (data : value)
    : result obj :=
  datas <- echoDatas this path data;;
  fold_left (fun acc data => buffer <- acc;; renderEcho this path buffer data)
            datas (Ok ∅).

(** [$include]. *)
Definition include (this : Statil) (path : jsstring) (data : value)
    : result value :=
  r <- renderOne this path (VObj (statics.Hash data));;
  Ok (fst r).

(** [$entitle]: the context as the call leaves it. Named properties written
    on an array are not kept by this model. *)
Definition entitle (title : value) (data : value) : value :=
  if negb (isObject data) then data
  else
    match title with
    | VStr t =>
        if isEmpty t then data
        else
          match data with
          | VObj o =>
              match getProp o (str "$title") with
              | VStr old =>
                  if isEmpty old then VObj (<[str "$title" := VStr t]> o)
                  else VObj (<[str "$title" := VStr (t ++ str " | " ++ old)]> o)
              | _ => VObj (<[str "$title" := VStr t]> o)
              end
          | _ => data
          end
    | _ => data
    end.

(** [$active]. *)
Definition active (path : value) (data : value) : jsstring :=
  if negb (isObject data) then []
  else
    match path, getField data (str "$path") with
    | VStr p, VStr dataPath =>
        let relative := pt.relative cwd p dataPath in
        if bool_decide (charCodeAt relative 0 = Some dot) then []
        else str "active"
    | _, _ => []
    end.

(** [$act]. *)
Definition act (path : value) (data : value) : jsstring :=
  if isEmpty (active path data) then []
  else str "class=" ++ [34] ++ str "active" ++ [34].

Definition isIgnored (this : Statil) (path : jsstring) : result bool :=
  let meta := metaAtPath this path in
  if negb (truthy meta) || negb (truthy (getField meta (str "ignore")))
  then Ok false
  else
    ignore <- statics.validateTruthyStringValue (getField meta (str "ignore"));;
    regexpTest ignore (pt.basename path).

(** ** [src/index.ts]: registration and rendering *)

Definition register (this : Statil) (source path : jsstring)
    : result Statil :=
  _ <- statics.validateTruthyString path;;
  let path := pt.relative cwd cwd path in
  if jsEqb (pt.ext path) (str ".yaml") || jsEqb (pt.ext path) (str ".json")
  then
    let path := pt.dirname path in
    if truthy (getProp (meta this) path) then Throw (DuplicateMeta path)
    else
      parsed <- safeLoad source;;
      Ok {| templates := templates this;
            meta := <[path := parsed]> (meta this);
            rename := rename this |}
  else
    let path := stripExt path in
    compiled <- lodashTemplate source this;;
    Ok {| templates := setKey path compiled (templates this);
          meta := meta this;
          rename := rename this |}.

(** One pass of the loop of [render]. *)
Definition renderStep (this : Statil) (data : value) (buffer : obj)
    (path : jsstring) : result obj :=
  ignored <- isIgnored this path;;
  if ignored then Ok buffer
  else
    rendered <- renderTemplate this path data;;
    Ok (assign buffer (VObj rendered)).

(** [for (const path in this.templates)] over the given keys. *)
Definition renderPaths (this : Statil) (paths : list jsstring)
    (data : value) (buffer : obj) : result obj :=
  fold_left (fun acc path => buffer <- acc;; renderStep this data buffer path)
            paths (Ok buffer).

Definition render (this : Statil) (data : value) : result obj :=
  renderPaths this (forInKeys (templates this)) data ∅.

(** The instances a program can hold: a new one, and what successful calls
    of [register] make of it. *)
Inductive registered : Statil -> Prop :=
| registered_new (rename : option (jsstring -> option jsstring)) :
    registered (newStatil rename)
| registered_register (this this' : Statil) (source path : jsstring) :
    registered this ->
    register this source path = Ok this' ->
    registered this'.

End Statil.

(* ===================================================================== *)
(** * Sample collaborators and instances

    Concrete stand-ins for what statil takes from its environment, and a few
    small sites, used to run the definitions on concrete inputs. *)
(* ===================================================================== *)

Module sample.

(** The path without the extension of its last component. *)
Definition stripExt (path : jsstring) : jsstring :=
  firstn (length path - length (pt.ext path)) path.

Fixpoint prefixes {A} (l : list A) : list (list A) :=
  match l with
  | [] => [[]]
  | x :: l' => [] :: List.map (cons x) (prefixes l')
  end.

(** A decomposition into the "index" of every directory from the root
    down, then the path itself. *)
Definition split (path : jsstring) : list jsstring :=
  List.map (fun dirs => joinWith [slash] (dirs ++ [str "index"]))
           (prefixes (removelast (splitOn slash path)))
  ++ [path].

(** A template that ignores its context. *)
Definition text (s : jsstring) : template :=
  fun data => Ok (VStr s, data).

(** A template that wraps the transcluded [$content]. *)
Definition wrap (before after : jsstring) : template :=
  fun data =>
    Ok (VStr (before ++ toStr (getProp data (str "$content")) ++ after), data).

(** A parser that knows two documents: the empty one, which a YAML parser
    loads as undefined, and everything else, loaded as an empty mapping. *)
Definition safeLoad (source : jsstring) : result value :=
  if isEmpty source then Ok VUndefined else Ok (VObj ∅).

(** A compiler that turns any source into a template printing it. *)
Definition lodashTemplate (source : jsstring) (_ : Statil) : result template :=
  Ok (text source).

(** Whether the subject starts with the pattern: what a pattern made of
    ["^"] and ordinary characters tests. *)
Definition regexpTest (pattern subject : jsstring) : result bool :=
  match pattern with
  | 94 :: p => Ok (match stripPrefix p subject with Some _ => true | None => false end)
  | _ => Throw SyntaxError
  end.

(** An evaluator for the expressions [$.key], which read the context, and
    for [__out = ''], which empties the output and has the empty string as
    its value. *)
Definition evalExpression (e : jsstring) (ctx : obj) (__out : jsstring)
    : result evaluation :=
  match e with
  | 36 :: 46 :: key => Ok (Evaluated (getProp ctx key) ctx __out)
  | _ => if jsEqb e (str "__out = ''") then Ok (Evaluated (VStr []) ctx [])
         else Throw (HostError 0)
  end.

Definition cwd : jsstring := str "/site".

(** A site with a root template and a leaf [a/b]; no template [a/index]. *)
Definition site : Statil :=
  {| templates := [ (str "index", wrap (str "<") (str ">"));
                    (str "a/b", text (str "leaf")) ];
     meta := ∅;
     rename := None |}.

(** A site whose top directory ignores the names that start with "_". *)
Definition siteWithPartial : Statil :=
  {| templates := [ (str "page", text (str "page"));
                    (str "_partial", text (str "partial")) ];
     meta := <[str "." := VObj (<[str "ignore" := VStr (str "^_")]> ∅)]> ∅;
     rename := None |}.

(** The echo example of the specification: a template [t] whose legend
    echoes the group [groupX] of three names. *)
Definition echoMeta : obj :=
  <[str "groupX" := VArr [ VObj (<[str "name" := VStr (str "x1")]> ∅);
                           VObj (<[str "name" := VStr (str "x2")]> ∅);
                           VObj (<[str "name" := VStr (str "x3")]> ∅) ]]>
  (<[str "files" := VArr [ VObj (<[str "name" := VStr (str "t")]>
                                 (<[str "echo" := VStr (str "groupX")]> ∅)) ]]>
   ∅).

(** A template printing the [$path] of its context. *)
Definition printPath : template :=
  fun data => Ok (VStr (toStr (getProp data (str "$path"))), data).

Definition echoSite : Statil :=
  {| templates := [ (str "t", printPath) ];
     meta := <[str "." := VObj echoMeta]> ∅;
     rename := None |}.



(** A site whose metadata lists its files in a mapping. *)
Definition mappingSite : Statil :=
  {| templates := [ (str "t", printPath) ];
     meta := <[str "." :=
                 VObj (<[str "files" :=
                           VObj (<[str "first" :=
                                     VObj (<[str "name" := VStr (str "t")]> ∅)]>
                                 ∅)]> ∅)]> ∅;
     rename := None |}.

(** A template that throws. *)
Definition failing (tag : N) : template := fun _ => Throw (HostError tag).

(** A site with two failing templates, [b] registered before [404]. *)
Definition orderSite : Statil :=
  {| templates := [ (str "b", failing 1); (str "404", failing 404) ];
     meta := ∅;
     rename := None |}.

(** What [register] makes of a new instance and a metadata file [a/meta.yaml]. *)
Definition registeredSite : Statil :=
  {| templates := []; meta := <[str "a" := VObj ∅]> ∅; rename := None |}.

End sample.

(* ===================================================================== *)
(** * Compositions of the methods *)
(* ===================================================================== *)

(** [$entitle] called with each title in turn on the same context. *)
Definition entitleAll (titles : list jsstring) (data : value) : value :=
  fold_left (fun data title => entitle (VStr title) data) titles data.

(** [register] called with each file in turn, a file being its source
    and its path; the first call that throws ends the sequence. *)
Fixpoint registerAll (stripExt : jsstring -> jsstring) (cwd : jsstring)
    (safeLoad : jsstring -> result value)
    (lodashTemplate : jsstring -> Statil -> result template)
    (this : Statil) (files : list (jsstring * jsstring)) : result Statil :=
  match files with
  | [] => Ok this
  | file :: files' =>
      this' <- register stripExt cwd safeLoad lodashTemplate this
                        (fst file) (snd file);;
      registerAll stripExt cwd safeLoad lodashTemplate this' files'
  end.

(** A line of [codeBody] that is a statement fragment. *)
Definition isStatement (i : instr) : bool :=
  match i with Statement _ => true | _ => false end.

(** A fragment that neither reads nor writes the output: evaluated after
    some output it gives the value, the context and the error that it gives
    after none, and it leaves that output in front of what it wrote. *)
Definition leavesOutput
    (evalExpression : jsstring -> obj -> jsstring -> result evaluation)
    (e : jsstring) : Prop :=
  forall (ctx : obj) (out : jsstring),
    match evalExpression e ctx [] with
    | Ok (Evaluated val ctx' out') =>
        evalExpression e ctx out = Ok (Evaluated val ctx' (out ++ out'))
    | Ok (Diverted _) => False
    | Throw err => evalExpression e ctx out = Throw err
    end.

(** The parts of a path that [relative] compares: those of its resolved
    form. *)
Definition pathParts (cwd path : jsstring) : list jsstring :=
  pt.trim (splitOn slash (skipn 1 (pt.resolve cwd path))).

(** A normal relative path: every part between the '/' is a plain name. *)
Definition isPlainPath (path : jsstring) : bool :=
  forallb isPlainName (splitOn slash path).

(** A match of one of the two delimiter patterns: it carries a fragment of
    template code, which is never empty. *)
Definition carriesCode (m : rmatch) : Prop :=
  (exists e, m_expressionValue m = Some e /\ e <> [])
  \/ (exists c, m_statementValue m = Some c /\ c <> []).




(* ===================================================================== *)
(** * Template sources, piece by piece *)
(* ===================================================================== *)










(* ===================================================================== *)
(** * Properties *)
(* ===================================================================== *)

(** ** Helper tactics and facts about results and property names *)

(** Two property names given as literals differ. *)
Ltac key_neq := let H := fresh in intro H; vm_compute in H; discriminate H.

Lemma bind_Ok {A B} (a : A) (k : A -> result B) : bind (Ok a) k = k a.
Proof. reflexivity. Qed.

Lemma bind_Throw {A B} (e : error) (k : A -> result B) :
  bind (Throw e) k = Throw e.
Proof. reflexivity. Qed.

Lemma bind_Ok_inv {A B} (r : result A) (k : A -> result B) (b : B) :
  bind r k = Ok b -> exists a, r = Ok a /\ k a = Ok b.
Proof. destruct r as [a|e]; simpl; [eauto | discriminate]. Qed.

Lemma getProp_insert_eq (o : obj) (k : jsstring) (v : value) :
  getProp (<[k := v]> o) k = v.
Proof. unfold getProp. now rewrite lookup_insert_eq. Qed.

Lemma getProp_insert_ne (o : obj) (k k' : jsstring) (v : value) :
  k <> k' -> getProp (<[k := v]> o) k' = getProp o k'.
Proof. intros H. unfold getProp. now rewrite lookup_insert_ne. Qed.

Lemma isEmpty_false (s : jsstring) : s <> [] -> isEmpty s = false.
Proof. now destruct s. Qed.

(** ** $entitle *)



(** ** Default locals and the passthrough renderer *)

Lemma locals_object (this : Statil) (path : jsstring) (data : value) :
  isObject data = true -> exists ctx, locals this path data = Ok ctx.
Proof.
  intros H. unfold locals.
  destruct data; try discriminate H; simpl; eauto.
Qed.

Lemma orNewHash_object (data : value) : isObject (orNewHash data) = true.
Proof. unfold orNewHash. destruct (isObject data) eqn:E; [exact E | reflexivity]. Qed.

Lemma orNewHash_non_object (data : value) :
  isObject data = false -> orNewHash data = VObj ∅.
Proof. intros H. unfold orNewHash. now rewrite H. Qed.

(** After [locals], [$content] is an own property of the context. *)
Lemma locals_content_present (this : Statil) (path : jsstring) (data : value)
    (ctx : obj) :
  locals this path data = Ok ctx -> is_Some (ctx !! str "$content").
Proof.
  unfold locals. intros H.
  apply bind_Ok_inv in H as (o & _ & H). injection H as <-.
  set (o1 := if isString (getProp o (str "$content")) then o
             else <[str "$content" := VStr []]> o).
  assert (H1 : is_Some (o1 !! str "$content")).
  { subst o1. unfold getProp.
    destruct (o !! str "$content") as [v|] eqn:E; simpl.
    - destruct (isString v); [rewrite E; eauto | rewrite lookup_insert_eq; eauto].
    - rewrite lookup_insert_eq; eauto. }
  clearbody o1.
  set (o2 := if isString (getProp o1 (str "$title")) then o1
             else <[str "$title" := VStr []]> o1).
  assert (H2 : is_Some (o2 !! str "$content")).
  { subst o2. destruct (isString _); [exact H1|].
    rewrite lookup_insert_ne by key_neq. exact H1. }
  clearbody o2.
  set (o3 := <[str "$" := VSelf]> o2).
  assert (H3 : is_Some (o3 !! str "$content")).
  { subst o3. rewrite lookup_insert_ne by key_neq. exact H2. }
  clearbody o3.
  set (o4 := if truthy (metaAtPath this path)
             then <[str "$meta" := metaAtPath this path]> o3 else o3).
  assert (H4 : is_Some (o4 !! str "$content")).
  { subst o4. destruct (truthy _); [|exact H3].
    rewrite lookup_insert_ne by key_neq. exact H3. }
  clearbody o4.
  destruct (truthy (fileLegend this path)); [|exact H4].
  unfold assign. destruct (fileLegend this path); try exact H4.
  destruct H4 as [v Hv]. rewrite lookup_union.
  rewrite Hv. destruct (o0 !! str "$content"); simpl; eauto.
Qed.

(** [locals] keeps a [$content] that is a string, unless the file's legend
    has a [$content] of its own. *)
Lemma locals_content_kept (this : Statil) (path : jsstring) (data ctx : obj)
    (c : jsstring) :
  locals this path (VObj data) = Ok ctx ->
  data !! str "$content" = Some (VStr c) ->
  ownProps (fileLegend this path) !! str "$content" = None ->
  ctx !! str "$content" = Some (VStr c).
Proof.
  unfold locals. simpl. intros H Hc Hleg. injection H as <-.
  assert (E : isString (getProp data (str "$content")) = true)
    by (unfold getProp; now rewrite Hc).
  rewrite !E.
  set (o2 := if isString (getProp data (str "$title")) then data
             else <[str "$title" := VStr []]> data).
  assert (H2 : o2 !! str "$content" = Some (VStr c)).
  { subst o2. destruct (isString (getProp data (str "$title"))); [exact Hc|].
    rewrite lookup_insert_ne by key_neq. exact Hc. }
  clearbody o2.
  set (o4 := if truthy (metaAtPath this path)
             then <[str "$meta" := metaAtPath this path]> (<[str "$" := VSelf]> o2)
             else <[str "$" := VSelf]> o2).
  assert (H4 : o4 !! str "$content" = Some (VStr c)).
  { subst o4. destruct (truthy _).
    - rewrite !lookup_insert_ne by key_neq. exact H2.
    - rewrite lookup_insert_ne by key_neq. exact H2. }
  clearbody o4.
  destruct (truthy (fileLegend this path)); [|exact H4].
  unfold assign. destruct (fileLegend this path); try exact H4.
  simpl in Hleg. rewrite lookup_union, Hleg, H4. reflexivity.
Qed.

Lemma eachRight_app (stripExt : jsstring -> jsstring) (this : Statil)
    (above below : list jsstring) (data : obj) :
  eachRight stripExt this (above ++ below) data
  = (d <- eachRight stripExt this below data;; eachRight stripExt this above d).
Proof.
  unfold eachRight. rewrite fold_right_app.
  generalize (fold_right
    (fun compoundedPath acc => d <- acc;; renderLevel stripExt this compoundedPath d)
    (Ok data) below) as r.
  induction above as [|p above IH]; intros r; simpl.
  - now destruct r.
  - rewrite IH. now destruct r.
Qed.

Lemma renderOne_unregistered (stripExt : jsstring -> jsstring) (this : Statil)
    (path : jsstring) (data : value) :
  path <> [] ->
  lookupKey (stripExt path) (templates this) = None ->
  exists ctx,
    locals this path (orNewHash data) = Ok ctx
    /\ renderOne stripExt this path data = Ok (getProp ctx (str "$content"), ctx).
Proof.
  intros Hpath Hreg.
  destruct (locals_object this path (orNewHash data) (orNewHash_object data))
    as [ctx Hctx].
  exists ctx. split; [exact Hctx|].
  unfold renderOne, statics.validateTruthyString.
  rewrite (isEmpty_false path Hpath), bind_Ok, Hreg, Hctx. reflexivity.
Qed.

Lemma renderLevel_unregistered (stripExt : jsstring -> jsstring) (this : Statil)
    (path : jsstring) (data : obj) :
  path <> [] ->
  lookupKey (stripExt path) (templates this) = None ->
  renderLevel stripExt this path data = locals this path (VObj data).
Proof.
  intros Hpath Hreg.
  destruct (renderOne_unregistered stripExt this path (VObj data) Hpath Hreg)
    as (ctx & Hctx & Hone).
  change (orNewHash (VObj data)) with (VObj data) in Hctx.
  unfold renderLevel. rewrite Hone, Hctx. simpl.
  destruct (locals_content_present this path _ ctx Hctx) as [v Hv].
  unfold getProp. rewrite Hv. simpl. now rewrite insert_id.
Qed.

(** ** renderOne without a registered template *)

(** C3. For every non-empty path with no template registered at its
    extension-stripped form, [renderOne] runs the passthrough renderer: it
    succeeds, and its output is the [$content] of the context it ran on
    (the given context after the default locals). So a [renderThrough] of a
    leaf whose chain of levels holds such a level goes through it without
    an error: once the levels below have rendered, the level passes their
    context on with the [$content] they left (a string stays as it is, the
    level's legend not defining one), the levels above are rendered on
    that context, and their result is the result of [renderThrough]; with
    no level above, [renderThrough] returns the [$content] passed on. *)
Theorem unregistered_level_passes_content :
  forall (split : jsstring -> list jsstring) (stripExt : jsstring -> jsstring)
         (this : Statil) (path : jsstring),
    path <> [] ->
    lookupKey (stripExt path) (templates this) = None ->
    (forall data : value, exists ctx,
        locals this path (orNewHash data) = Ok ctx
        /\ renderOne stripExt this path data
           = Ok (getProp ctx (str "$content"), ctx))
    /\ (forall (leaf : jsstring) (data : value) (above below : list jsstring)
               (d1 : obj),
          leaf <> [] ->
          split leaf = above ++ path :: below ->
          eachRight stripExt this below (ownProps (orNewHash data)) = Ok d1 ->
          exists d2 : obj,
            renderLevel stripExt this path d1 = Ok d2
            /\ (forall c,
                  d1 !! str "$content" = Some (VStr c) ->
                  ownProps (fileLegend this path) !! str "$content" = None ->
                  d2 !! str "$content" = Some (VStr c))
            /\ renderThrough split stripExt this leaf data
               = (d <- eachRight stripExt this above d2;;
                  Ok (getProp d (str "$content"), d))
            /\ (above = [] ->
                  renderThrough split stripExt this leaf data
                  = Ok (getProp d2 (str "$content"), d2))).
Proof.
  intros split stripExt this path Hpath Hreg. split.
  - intros data. now apply renderOne_unregistered.
  - intros leaf data above below d1 Hleaf Hsplit Hbelow.
    destruct (locals_object this path (VObj d1) eq_refl) as [d2 Hd2].
    assert (Hlevel : renderLevel stripExt this path d1 = Ok d2)
      by now rewrite renderLevel_unregistered.
    assert (Hthrough : renderThrough split stripExt this leaf data
                       = (d <- eachRight stripExt this above d2;;
                          Ok (getProp d (str "$content"), d))).
    { unfold renderThrough, statics.validateTruthyString.
      rewrite (isEmpty_false leaf Hleaf), bind_Ok, Hsplit, eachRight_app.
      cbn [eachRight fold_right].
      fold (eachRight stripExt this below (ownProps (orNewHash data))).
      rewrite Hbelow. cbn [bind]. rewrite Hlevel. reflexivity. }
    exists d2. split; [exact Hlevel|]. split; [|split].
    + intros c Hc Hleg. eapply locals_content_kept; eassumption.
    + exact Hthrough.
    + intros ->. rewrite Hthrough. reflexivity.
Qed.

Lemma unregistered_level_passes_content_witness :
  exists d2 : obj,
    renderLevel sample.stripExt sample.site (str "a/index")
                (<[str "$content" := VStr (str "leaf")]>
                   (<[str "$" := VSelf]>
                      (<[str "$title" := VStr []]> ∅))) = Ok d2
    /\ d2 !! str "$content" = Some (VStr (str "leaf"))
    /\ renderThrough sample.split sample.stripExt sample.site (str "a/b")
                     VUndefined
       = (d <- eachRight sample.stripExt sample.site [str "index"] d2;;
          Ok (getProp d (str "$content"), d)).
Proof.
  destruct (proj2 (unregistered_level_passes_content sample.split
                     sample.stripExt sample.site (str "a/index")
                     ltac:(discriminate) eq_refl)
                  (str "a/b") VUndefined [str "index"] [str "a/b"]
                  (<[str "$content" := VStr (str "leaf")]>
                     (<[str "$" := VSelf]> (<[str "$title" := VStr []]> ∅)))
                  ltac:(discriminate) eq_refl)
    as (d2 & Hlevel & Hcontent & Hthrough & _).
  - vm_compute. reflexivity.
  - exists d2. split; [exact Hlevel|]. split; [|exact Hthrough].
    apply Hcontent; [apply lookup_insert_eq|reflexivity].
Defined.

(** The leaf [a/b] of the sample site rendered through the missing level
    [a/index] up to the root. *)
Example renderThrough_missing_level :
  option_map fst
    (match renderThrough sample.split sample.stripExt sample.site (str "a/b") VUndefined with
     | Ok r => Some r
     | Throw _ => None
     end)
  = Some (VStr (str "<leaf>")).
Proof. vm_compute. reflexivity. Qed.

(** ** Non-object data *)

(** C4, as the code has it. A data argument of [renderOne] or
    [renderThrough] that is not an object is replaced by a fresh empty
    context, and the call proceeds as it does on an empty context; the
    validation error for a non-object context is raised by [locals] alone. *)
Theorem non_object_data_replaced :
  forall (split : jsstring -> list jsstring) (stripExt : jsstring -> jsstring)
         (this : Statil) (path : jsstring) (data : value),
    isObject data = false ->
    renderOne stripExt this path data = renderOne stripExt this path (VObj ∅)
    /\ renderThrough split stripExt this path data
       = renderThrough split stripExt this path (VObj ∅)
    /\ locals this path data = Throw ValidationError.
Proof.
  intros split stripExt this path data H. repeat split.
  - unfold renderOne. now rewrite (orNewHash_non_object data H).
  - unfold renderThrough. now rewrite (orNewHash_non_object data H).
  - destruct data; try discriminate H; reflexivity.
Qed.

Lemma non_object_data_replaced_witness :
  renderOne sample.stripExt sample.site (str "a/b") (VNum (Safe 5 eq_refl))
  = renderOne sample.stripExt sample.site (str "a/b") (VObj ∅).
Proof.
  exact (proj1 (non_object_data_replaced sample.split sample.stripExt
                  sample.site (str "a/b") (VNum (Safe 5 eq_refl)) eq_refl)).
Defined.

(** C4, as stated, fails: given the number 5 as data, [renderOne] and
    [renderThrough] return a rendering instead of raising. *)
Lemma non_object_data_not_rejected :
  isObject (VNum (Safe 5 eq_refl)) = false
  /\ (exists ctx, renderOne sample.stripExt sample.site (str "a/b") (VNum (Safe 5 eq_refl))
                  = Ok (VStr (str "leaf"), ctx))
  /\ (exists ctx, renderThrough sample.split sample.stripExt sample.site
                    (str "a/b") (VNum (Safe 5 eq_refl))
                  = Ok (VStr (str "<leaf>"), ctx)).
Proof.
  split; [reflexivity|]. split; eexists; vm_compute; reflexivity.
Qed.

(** ** dirname of a file inside a directory *)

(** A path that ends in a component without '/' does not end in '/'. *)
Lemma lastIsSlash_component (d f : jsstring) :
  f <> [] -> ~ In slash f -> pt.lastIsSlash (d ++ [slash] ++ f) = false.
Proof.
  intros Hf Hns. unfold pt.lastIsSlash.
  destruct (exists_last Hf) as (f' & c & ->).
  replace (d ++ [slash] ++ f' ++ [c]) with ((d ++ [slash] ++ f') ++ [c])
    by now rewrite <- !app_assoc.
  rewrite last_snoc.
  destruct (N.eqb_spec c slash) as [->|]; [|reflexivity].
  exfalso. apply Hns. apply in_or_app. right. now left.
Qed.

Lemma charCodeAt_component (d f : jsstring) (j : nat) :
  charCodeAt (d ++ [slash] ++ f) (length d + S j) = nth_error f j.
Proof.
  unfold charCodeAt. rewrite nth_error_app2 by lia.
  now replace (length d + S j - length d)%nat with (S j) by lia.
Qed.

Lemma charCodeAt_separator (d f : jsstring) :
  charCodeAt (d ++ [slash] ++ f) (length d) = Some slash.
Proof.
  unfold charCodeAt. rewrite nth_error_app2 by lia.
  now rewrite Nat.sub_diag.
Qed.

(** The loop of [dirname] on [d/f]: it passes over [f] and stops at the
    '/' that follows [d]. *)
Lemma dirnameEnd_component (d f : jsstring) (k : nat) (b : bool) :
  d <> [] -> ~ In slash f -> (k < length f)%nat ->
  pt.dirnameEnd (d ++ [slash] ++ f) (length d + S k) b = Some (length d).
Proof.
  intros Hd Hns. revert b.
  assert (Hc : forall j, charCodeAt (d ++ [slash] ++ f) (length d + S j) <> Some slash).
  { intros j. rewrite charCodeAt_component. intros Hn.
    apply Hns. eapply nth_error_In. exact Hn. }
  induction k as [|k IH]; intros b Hk.
  - replace (length d + 1)%nat with (S (length d)) by lia.
    cbn [pt.dirnameEnd].
    specialize (Hc 0%nat). replace (length d + 1)%nat with (S (length d)) in Hc by lia.
    rewrite bool_decide_eq_false_2 by exact Hc.
    pose proof (charCodeAt_separator d f) as Hs.
    destruct (length d) as [|n] eqn:En; [now destruct d|].
    cbn [pt.dirnameEnd].
    now rewrite bool_decide_eq_true_2 by exact Hs.
  - replace (length d + S (S k))%nat with (S (length d + S k)) by lia.
    cbn [pt.dirnameEnd].
    specialize (Hc (S k)).
    replace (length d + S (S k))%nat with (S (length d + S k)) in Hc by lia.
    rewrite bool_decide_eq_false_2 by exact Hc.
    apply IH. lia.
Qed.

Lemma dirname_component (d f : jsstring) :
  d <> [] -> d <> str "/" -> f <> [] -> ~ In slash f ->
  pt.dirname (d ++ [slash] ++ f) = d.
Proof.
  intros Hd Hroot Hf Hns. unfold pt.dirname.
  assert (Hne : isEmpty (d ++ [slash] ++ f) = false) by now destruct d.
  rewrite Hne.
  replace (length (d ++ [slash] ++ f) - 1)%nat with (length d + S (length f - 1))%nat.
  2:{ rewrite !length_app. simpl. destruct f; [contradiction|]. simpl. lia. }
  rewrite dirnameEnd_component; try assumption.
  2:{ destruct f; [contradiction|]. simpl. lia. }
  assert (Hslice : slice (d ++ [slash] ++ f) 0 (length d) = d).
  { unfold slice. rewrite Nat.sub_0_r, drop_0. apply take_app_length. }
  destruct (pt.isAbsolute (d ++ [slash] ++ f)) eqn:Habs; cbn [andb]; [|exact Hslice].
  destruct (Nat.eqb_spec (length d) 1) as [Hlen|]; [|exact Hslice].
  exfalso. apply Hroot.
  destruct d as [|c [|? ?]]; try discriminate Hlen.
  simpl in Habs. apply N.eqb_eq in Habs. now subst c.
Qed.

(** ** $active *)

(** What [$active] tests: the first code unit of the relative path. *)
Lemma active_first_unit (cwd p dataPath : jsstring) (data : obj) :
  data !! str "$path" = Some (VStr dataPath) ->
  active cwd (VStr p) (VObj data)
  = if bool_decide (head (pt.relative cwd p dataPath) = Some dot)
    then [] else str "active".
Proof.
  intros H. unfold active. simpl. unfold getProp. rewrite H. simpl.
  unfold charCodeAt. now destruct (pt.relative cwd p dataPath).
Qed.

(** The two examples of the specification. *)
Example active_docs_intro :
  active sample.cwd (VStr (str "/docs/"))
         (VObj (<[str "$path" := VStr (str "/docs/intro")]> ∅)) = str "active"
  /\ active sample.cwd (VStr (str "/blog/"))
            (VObj (<[str "$path" := VStr (str "/docs/intro")]> ∅)) = [].
Proof. split; vm_compute; reflexivity. Qed.

(** C7. The path "/docs/.hidden" is nested under the prefix "/docs": the
    relative path from the one to the other is ".hidden", which has no
    parent-directory marker. [$active] nevertheless answers with the empty
    string, because it looks at the first character of the relative path
    only. The same holds for the [$path] "docs/.htaccess" that
    [renderTemplate] gives to a template of that name, under the prefix
    "docs". *)
Theorem active_rejects_nested_dot_name :
  pt.relative sample.cwd (str "/docs") (str "/docs/.hidden") = str ".hidden"
  /\ head (splitOn slash (pt.relative sample.cwd (str "/docs") (str "/docs/.hidden")))
     <> Some (str "..")
  /\ active sample.cwd (VStr (str "/docs"))
            (VObj (<[str "$path" := VStr (str "/docs/.hidden")]> ∅)) = []
  /\ pt.joinStrings [pt.dirname (str "docs/.htaccess");
                     pt.basename (str "docs/.htaccess")] = str "docs/.htaccess"
  /\ pt.relative sample.cwd (str "docs") (str "docs/.htaccess") = str ".htaccess"
  /\ active sample.cwd (VStr (str "docs"))
            (VObj (<[str "$path" := VStr (str "docs/.htaccess")]> ∅)) = [].
Proof.
  split; [vm_compute; reflexivity|].
  split; [vm_compute; discriminate|].
  repeat split; vm_compute; reflexivity.
Qed.

(** ** register *)

(** A successful registration of a metadata file stores what the parser
    returned under the file's directory. *)
Lemma register_meta_stored (cwd : jsstring) (stripExt : jsstring -> jsstring)
    (safeLoad : jsstring -> result value)
    (lodashTemplate : jsstring -> Statil -> result template)
    (this this1 : Statil) (source path : jsstring) (parsed : value) :
  jsEqb (pt.ext (pt.relative cwd cwd path)) (str ".yaml")
  || jsEqb (pt.ext (pt.relative cwd cwd path)) (str ".json") = true ->
  register stripExt cwd safeLoad lodashTemplate this source path = Ok this1 ->
  safeLoad source = Ok parsed ->
  getProp (meta this1) (pt.dirname (pt.relative cwd cwd path)) = parsed.
Proof.
  intros Hext Hreg Hload. unfold register in Hreg.
  apply bind_Ok_inv in Hreg as (_ & _ & Hreg).
  rewrite Hext in Hreg.
  destruct (truthy (getProp (meta this) _)); [discriminate Hreg|].
  rewrite Hload in Hreg. simpl in Hreg. injection Hreg as <-.
  simpl. apply getProp_insert_eq.
Qed.

(** C8. [register] lets a second metadata file through when the first
    one of the directory parsed to a falsy value: the test
    [if (this.meta[path])], which stands under the comment "Mandate no more
    than one meta per path", takes a falsy entry for no entry. After a
    metadata file whose content is falsy (an empty document loads as
    undefined), a second metadata file for the same directory is parsed
    and stored in its place, and no duplicate-meta error is thrown. *)
Theorem register_misses_duplicate_meta :
  forall (cwd : jsstring) (stripExt : jsstring -> jsstring)
         (safeLoad : jsstring -> result value)
         (lodashTemplate : jsstring -> Statil -> result template)
         (this this1 : Statil) (source1 path1 source2 path2 : jsstring)
         (parsed parsed2 : value),
    path2 <> [] ->
    jsEqb (pt.ext (pt.relative cwd cwd path1)) (str ".yaml")
    || jsEqb (pt.ext (pt.relative cwd cwd path1)) (str ".json") = true ->
    jsEqb (pt.ext (pt.relative cwd cwd path2)) (str ".yaml")
    || jsEqb (pt.ext (pt.relative cwd cwd path2)) (str ".json") = true ->
    pt.dirname (pt.relative cwd cwd path1) = pt.dirname (pt.relative cwd cwd path2) ->
    register stripExt cwd safeLoad lodashTemplate this source1 path1 = Ok this1 ->
    safeLoad source1 = Ok parsed ->
    truthy parsed = false ->
    safeLoad source2 = Ok parsed2 ->
    exists this2,
      register stripExt cwd safeLoad lodashTemplate this1 source2 path2 = Ok this2
      /\ getProp (meta this1) (pt.dirname (pt.relative cwd cwd path2)) = parsed
      /\ getProp (meta this2) (pt.dirname (pt.relative cwd cwd path2)) = parsed2.
Proof.
  intros cwd stripExt safeLoad lodashTemplate this this1 source1 path1
    source2 path2 parsed parsed2 Hpath Hext1 Hext2 Hdir Hreg Hload Hfalsy Hload2.
  pose proof (register_meta_stored _ _ _ _ _ _ _ _ _ Hext1 Hreg Hload) as Hstored.
  rewrite Hdir in Hstored.
  eexists. split; [|split; [exact Hstored|]].
  - unfold register, statics.validateTruthyString.
    rewrite (isEmpty_false path2 Hpath), bind_Ok, Hext2, Hstored, Hfalsy, Hload2.
    reflexivity.
  - cbn [meta]. apply getProp_insert_eq.
Qed.

Lemma register_misses_duplicate_meta_witness :
  exists this2,
    register sample.stripExt sample.cwd sample.safeLoad sample.lodashTemplate
      {| templates := []; meta := <[str "a" := VUndefined]> ∅; rename := None |}
      (str "title: x") (str "a/more.json") = Ok this2
    /\ getProp (<[str "a" := VUndefined]> ∅) (str "a") = VUndefined
    /\ getProp (meta this2) (str "a") = VObj ∅.
Proof.
  refine (register_misses_duplicate_meta sample.cwd sample.stripExt
            sample.safeLoad sample.lodashTemplate (newStatil None) _
            [] (str "a/meta.yaml") (str "title: x") (str "a/more.json")
            VUndefined (VObj ∅) _ _ _ _ _ _ _ _).
  - discriminate.
  - vm_compute; reflexivity.
  - vm_compute; reflexivity.
  - vm_compute; reflexivity.
  - vm_compute; reflexivity.
  - reflexivity.
  - reflexivity.
  - reflexivity.
Defined.

(** The two calls on a new instance: [register('', 'a/meta.yaml')], then
    [register('title: x', 'a/more.json')]. *)
Example register_second_meta_accepted :
  exists this1 this2,
    register sample.stripExt sample.cwd sample.safeLoad sample.lodashTemplate
             (newStatil None) [] (str "a/meta.yaml") = Ok this1
    /\ register sample.stripExt sample.cwd sample.safeLoad sample.lodashTemplate
                this1 (str "title: x") (str "a/more.json") = Ok this2
    /\ meta this1 !! str "a" = Some VUndefined
    /\ meta this2 !! str "a" = Some (VObj ∅).
Proof.
  eexists; eexists. split; [vm_compute; reflexivity|].
  split; [vm_compute; reflexivity|].
  split; vm_compute; reflexivity.
Qed.

(** ** render and the ignore pattern *)

Section RenderLoop.

Variable split : jsstring -> list jsstring.
Variable stripExt : jsstring -> jsstring.
Variable regexpTest : jsstring -> jsstring -> result bool.
Variable this : Statil.
Variable data : value.

Let step := renderStep split stripExt regexpTest this data.
Let loop := renderPaths split stripExt regexpTest this.

Lemma renderLoop_from (paths : list jsstring) (r : result obj) :
  fold_left (fun acc path => buffer <- acc;; step buffer path) paths r
  = (buffer <- r;; loop paths data buffer).
Proof.
  revert r. induction paths as [|p paths IH]; intros r.
  - now destruct r.
  - simpl. rewrite IH. destruct r as [b|e]; simpl.
    + unfold loop, renderPaths. simpl. now rewrite IH.
    + reflexivity.
Qed.

Lemma renderPaths_cons (path : jsstring) (rest : list jsstring) (buffer : obj) :
  loop (path :: rest) data buffer
  = (buffer' <- step buffer path;; loop rest data buffer').
Proof.
  unfold loop at 1, renderPaths. simpl. apply renderLoop_from.
Qed.

Lemma renderPaths_app (before after : list jsstring) (buffer : obj) :
  loop (before ++ after) data buffer
  = (buffer' <- loop before data buffer;; loop after data buffer').
Proof.
  unfold loop at 1, renderPaths. rewrite fold_left_app.
  fold (renderPaths split stripExt regexpTest this before data buffer).
  apply renderLoop_from.
Qed.

End RenderLoop.

Section RenderOutput.

Variable split : jsstring -> list jsstring.
Variable stripExt : jsstring -> jsstring.
Variable regexpTest : jsstring -> jsstring -> result bool.
Variable this : Statil.
Variable data : value.

Let step := renderStep split stripExt regexpTest this data.
Let loop := renderPaths split stripExt regexpTest this.
Let ignored := isIgnored regexpTest this.
Let one := fun path => renderTemplate split stripExt this path data.

Lemma renderStep_Ok (buffer out : obj) (path : jsstring) :
  step buffer path = Ok out ->
  (ignored path = Ok true /\ out = buffer)
  \/ (exists rendered, ignored path = Ok false /\ one path = Ok rendered
                       /\ out = rendered ∪ buffer).
Proof.
  unfold step, renderStep, ignored, one.
  destruct (isIgnored regexpTest this path) as [[|]|e]; cbn [bind];
    [intros [= <-]; now left| |discriminate].
  destruct (renderTemplate split stripExt this path data) as [rendered|e];
    cbn [bind assign]; [|discriminate].
  intros [= <-]. right. now exists rendered.
Qed.

Lemma renderStep_Throw (buffer : obj) (path : jsstring) (e : error) :
  ignored path = Throw e \/ (ignored path = Ok false /\ one path = Throw e) ->
  step buffer path = Throw e.
Proof.
  unfold step, renderStep, ignored, one. intros [->|[-> ->]]; reflexivity.
Qed.

Lemma renderPaths_sources (paths : list jsstring) (buffer out : obj) :
  loop paths data buffer = Ok out ->
  forall k v, out !! k = Some v ->
    buffer !! k = Some v
    \/ exists path rendered,
         In path paths /\ ignored path = Ok false
         /\ one path = Ok rendered /\ rendered !! k = Some v.
Proof.
  revert buffer. induction paths as [|p paths IH]; intros buffer.
  - intros [= <-] k v H. now left.
  - unfold loop. rewrite renderPaths_cons. fold step loop.
    destruct (step buffer p) as [b'|e] eqn:Hstep; cbn [bind]; [|discriminate].
    intros Hloop k v Hk.
    destruct (IH b' Hloop k v Hk) as [Hb|(q & r & Hin & Hq)].
    + destruct (renderStep_Ok _ _ _ Hstep) as [[_ ->]|(r & Hi & Hr & ->)];
        [now left|].
      apply lookup_union_Some_raw in Hb as [Hb|[_ Hb]]; [|now left].
      right. exists p, r. repeat split; try assumption. now left.
    + right. exists q, r. split; [now right|assumption].
Qed.

Lemma renderPaths_grows (paths : list jsstring) (buffer out : obj) :
  loop paths data buffer = Ok out ->
  forall k, is_Some (buffer !! k) -> is_Some (out !! k).
Proof.
  revert buffer. induction paths as [|p paths IH]; intros buffer.
  - now intros [= <-].
  - unfold loop. rewrite renderPaths_cons. fold step loop.
    destruct (step buffer p) as [b'|e] eqn:Hstep; cbn [bind]; [|discriminate].
    intros Hloop k Hk. apply (IH b' Hloop).
    destruct (renderStep_Ok _ _ _ Hstep) as [[_ ->]|(r & _ & _ & ->)];
      [assumption|].
    destruct Hk as [v Hv]. rewrite lookup_union, Hv.
    destruct (r !! k); cbn; eauto.
Qed.

Lemma renderPaths_covers (paths : list jsstring) (buffer out : obj) :
  loop paths data buffer = Ok out ->
  forall path rendered k,
    In path paths -> ignored path = Ok false -> one path = Ok rendered ->
    is_Some (rendered !! k) -> is_Some (out !! k).
Proof.
  revert buffer. induction paths as [|p paths IH]; intros buffer.
  - intros _ path rendered k [].
  - unfold loop. rewrite renderPaths_cons. fold step loop.
    destruct (step buffer p) as [b'|e] eqn:Hstep; cbn [bind]; [|discriminate].
    intros Hloop path rendered k [->|Hin] Hi Hr Hk.
    + apply (renderPaths_grows _ _ _ Hloop).
      destruct (renderStep_Ok _ _ _ Hstep) as [[Hi' _]|(r & _ & Hr' & ->)];
        [congruence|].
      assert (r = rendered) as -> by congruence.
      destruct Hk as [v Hv]. rewrite lookup_union, Hv.
      destruct (buffer !! k); cbn; eauto.
    + now apply (IH b' Hloop path rendered k).
Qed.

Lemma renderPaths_last (paths : list jsstring) (path : jsstring)
    (buffer out rendered : obj) :
  loop (paths ++ [path]) data buffer = Ok out ->
  ignored path = Ok false -> one path = Ok rendered ->
  forall k v, rendered !! k = Some v -> out !! k = Some v.
Proof.
  unfold loop. rewrite renderPaths_app. fold loop.
  destruct (loop paths data buffer) as [b|e]; cbn [bind]; [|discriminate].
  unfold loop. rewrite renderPaths_cons. fold step.
  destruct (step b path) as [b'|e] eqn:Hstep; cbn [bind]; [|discriminate].
  intros [= <-] Hi Hr k v Hk.
  destruct (renderStep_Ok _ _ _ Hstep) as [[Hi' _]|(r & _ & Hr' & ->)];
    [congruence|].
  assert (r = rendered) as -> by congruence.
  rewrite lookup_union, Hk. now destruct (b !! k).
Qed.

Lemma renderPaths_all_pass (paths : list jsstring) (buffer : obj) :
  (forall p, In p paths ->
     ignored p = Ok true
     \/ (ignored p = Ok false /\ exists rendered, one p = Ok rendered)) ->
  exists out, loop paths data buffer = Ok out.
Proof.
  revert buffer. induction paths as [|p paths IH]; intros buffer H.
  - now exists buffer.
  - unfold loop. rewrite renderPaths_cons. fold step loop.
    assert (Hp : exists b', step buffer p = Ok b').
    { unfold step, renderStep. fold ignored.
      destruct (H p (or_introl eq_refl)) as [->|[-> [r Hr]]]; cbn [bind];
        [eauto|].
      fold (one p). rewrite Hr. cbn [bind]. eauto. }
    destruct Hp as [b' ->]. cbn [bind]. apply IH.
    intros q Hq. apply H. now right.
Qed.

End RenderOutput.

Lemma isIgnored_matching (regexpTest : jsstring -> jsstring -> result bool)
    (this : Statil) (path pattern : jsstring) :
  getField (metaAtPath this path) (str "ignore") = VStr pattern ->
  pattern <> [] ->
  isIgnored regexpTest this path = regexpTest pattern (pt.basename path).
Proof.
  intros Hign Hne. unfold isIgnored. rewrite Hign.
  assert (Hm : truthy (metaAtPath this path) = true).
  { destruct (metaAtPath this path); try discriminate Hign; reflexivity. }
  rewrite Hm. simpl. now rewrite (isEmpty_false pattern Hne).
Qed.

Lemma isIgnored_without_pattern (regexpTest : jsstring -> jsstring -> result bool)
    (this : Statil) (path : jsstring) :
  truthy (metaAtPath this path) = false
  \/ truthy (getField (metaAtPath this path) (str "ignore")) = false ->
  isIgnored regexpTest this path = Ok false.
Proof.
  intros Hno. unfold isIgnored. destruct Hno as [-> | ->]; [reflexivity|].
  now rewrite orb_true_r.
Qed.

(** C9. [render] visits the registered paths in the order of [for ... in].
    When the basename of one of them matches the [ignore] pattern in the
    metadata of its directory, [render] passes over it: what it returns is
    what the loop over the other paths returns, [renderTemplate] not being
    called for that path. A registered path whose directory has no
    metadata, or metadata without a truthy [ignore], is never passed over:
    [render] calls [renderTemplate] for it between the paths before and
    after it and merges the result into the output, so that when [render]
    returns, that rendering succeeded and every key of it is in the
    output. *)
Theorem render_omits_ignored :
  forall (split : jsstring -> list jsstring) (stripExt : jsstring -> jsstring)
         (regexpTest : jsstring -> jsstring -> result bool)
         (this : Statil) (data : value),
    (forall (path pattern : jsstring) (before after : list jsstring),
        forInKeys (templates this) = before ++ path :: after ->
        getField (metaAtPath this path) (str "ignore") = VStr pattern ->
        pattern <> [] ->
        regexpTest pattern (pt.basename path) = Ok true ->
        render split stripExt regexpTest this data
        = renderPaths split stripExt regexpTest this (before ++ after) data ∅)
    /\ (forall (path : jsstring) (before after : list jsstring),
          forInKeys (templates this) = before ++ path :: after ->
          truthy (metaAtPath this path) = false
          \/ truthy (getField (metaAtPath this path) (str "ignore")) = false ->
          render split stripExt regexpTest this data
          = (buffer <- renderPaths split stripExt regexpTest this before data ∅;;
             rendered <- renderTemplate split stripExt this path data;;
             renderPaths split stripExt regexpTest this after data
                         (assign buffer (VObj rendered))))
    /\ (forall (path : jsstring) (out : obj),
          In path (forInKeys (templates this)) ->
          truthy (metaAtPath this path) = false
          \/ truthy (getField (metaAtPath this path) (str "ignore")) = false ->
          render split stripExt regexpTest this data = Ok out ->
          exists rendered : obj,
            renderTemplate split stripExt this path data = Ok rendered
            /\ forall k, is_Some (rendered !! k) -> is_Some (out !! k)).
Proof.
  intros split stripExt regexpTest this data.
  assert (Hkept : forall (path : jsstring) (before after : list jsstring),
    forInKeys (templates this) = before ++ path :: after ->
    truthy (metaAtPath this path) = false
    \/ truthy (getField (metaAtPath this path) (str "ignore")) = false ->
    render split stripExt regexpTest this data
    = (buffer <- renderPaths split stripExt regexpTest this before data ∅;;
       rendered <- renderTemplate split stripExt this path data;;
       renderPaths split stripExt regexpTest this after data
                   (assign buffer (VObj rendered)))).
  { intros path before after Hkeys Hno.
    unfold render. rewrite Hkeys, renderPaths_app.
    destruct (renderPaths split stripExt regexpTest this before data ∅)
      as [buffer|e]; [|reflexivity].
    cbn [bind]. rewrite renderPaths_cons. unfold renderStep.
    rewrite (isIgnored_without_pattern regexpTest this path Hno). cbn [bind].
    now destruct (renderTemplate split stripExt this path data). }
  split; [|split; [exact Hkept|]].
  - intros path pattern before after Hkeys Hign Hne Hmatch.
    unfold render. rewrite Hkeys, !renderPaths_app.
    destruct (renderPaths split stripExt regexpTest this before data ∅)
      as [buffer|e]; [|reflexivity].
    simpl. rewrite renderPaths_cons. unfold renderStep.
    rewrite (isIgnored_matching regexpTest this path pattern Hign Hne), Hmatch.
    reflexivity.
  - intros path out Hin Hno Hout.
    destruct (in_split _ _ Hin) as (before & after & Hkeys).
    pose proof (Hkept path before after Hkeys Hno) as Heq.
    rewrite Hout in Heq.
    destruct (renderPaths split stripExt regexpTest this before data ∅)
      as [buffer|e]; [|discriminate Heq].
    cbn [bind] in Heq.
    destruct (renderTemplate split stripExt this path data) as [rendered|e]
      eqn:Hone; [|discriminate Heq].
    exists rendered. split; [reflexivity|]. intros k Hk.
    unfold render in Hout.
    exact (renderPaths_covers split stripExt regexpTest this data _ _ _ Hout
             path rendered k Hin
             (isIgnored_without_pattern regexpTest this path Hno) Hone Hk).
Qed.

Lemma render_omits_ignored_witness :
  render sample.split sample.stripExt sample.regexpTest
         sample.siteWithPartial VUndefined
  = renderPaths sample.split sample.stripExt sample.regexpTest
                sample.siteWithPartial ([str "page"] ++ []) VUndefined ∅
  /\ render sample.split sample.stripExt sample.regexpTest sample.site VUndefined
     = (buffer <- renderPaths sample.split sample.stripExt sample.regexpTest
                              sample.site [str "index"] VUndefined ∅;;
        rendered <- renderTemplate sample.split sample.stripExt sample.site
                                   (str "a/b") VUndefined;;
        renderPaths sample.split sample.stripExt sample.regexpTest sample.site
                    [] VUndefined (assign buffer (VObj rendered))).
Proof.
  split.
  - refine (proj1 (render_omits_ignored sample.split sample.stripExt
                     sample.regexpTest sample.siteWithPartial VUndefined)
                  (str "_partial") (str "^_") [str "page"] [] _ _ _ _).
    + reflexivity.
    + vm_compute; reflexivity.
    + discriminate.
    + vm_compute; reflexivity.
  - refine (proj1 (proj2 (render_omits_ignored sample.split sample.stripExt
                            sample.regexpTest sample.site VUndefined))
                  (str "a/b") [str "index"] [] _ _).
    + reflexivity.
    + left. reflexivity.
Defined.

(** The sample site renders its page and nothing for the ignored partial. *)
Example render_siteWithPartial :
  render sample.split sample.stripExt sample.regexpTest
         sample.siteWithPartial VUndefined
  = Ok (<[str "page" := VStr (str "page")]> ∅).
Proof. vm_compute. reflexivity. Qed.

(** ** Joining a directory with a plain name *)

Lemma splitOn_not_nil (sep : N) (s : jsstring) : splitOn sep s <> [].
Proof.
  destruct s as [|c s]; simpl; [discriminate|].
  destruct (c =? sep); [discriminate|].
  destruct (splitOn sep s); discriminate.
Qed.

Lemma splitOn_no_sep (sep : N) (s : jsstring) :
  ~ In sep s -> splitOn sep s = [s].
Proof.
  induction s as [|c s IH]; intros H; [reflexivity|].
  simpl. destruct (N.eqb_spec c sep) as [->|_].
  - exfalso. apply H. now left.
  - rewrite IH; [reflexivity|]. intros Hin. apply H. now right.
Qed.

Lemma splitOn_app_sep (sep : N) (a b : jsstring) :
  splitOn sep (a ++ [sep] ++ b) = splitOn sep a ++ splitOn sep b.
Proof.
  change (a ++ [sep] ++ b) with (a ++ sep :: b).
  induction a as [|c a IH]; simpl.
  - now rewrite N.eqb_refl.
  - rewrite IH. destruct (c =? sep); [reflexivity|].
    pose proof (splitOn_not_nil sep a) as Hne.
    now destruct (splitOn sep a).
Qed.

Lemma joinWith_snoc (sep : jsstring) (parts : list jsstring) (p : jsstring) :
  joinWith sep (parts ++ [p])
  = match parts with
    | [] => p
    | _ => joinWith sep parts ++ sep ++ p
    end.
Proof.
  induction parts as [|q parts IH]; [reflexivity|].
  destruct parts as [|q' parts]; [reflexivity|].
  change (joinWith sep ((q :: q' :: parts) ++ [p]))
    with (q ++ sep ++ joinWith sep ((q' :: parts) ++ [p])).
  rewrite IH.
  change (joinWith sep (q :: q' :: parts))
    with (q ++ sep ++ joinWith sep (q' :: parts)).
  now rewrite <- !app_assoc.
Qed.

Lemma isPlainName_spec (n : jsstring) :
  isPlainName n = true ->
  n <> [] /\ ~ In slash n /\ n <> str "." /\ n <> str "..".
Proof.
  unfold isPlainName. rewrite !andb_true_iff, !negb_true_iff.
  intros [[[Hne Hns] Hd] Hdd]. repeat split.
  - now destruct n.
  - intros Hin. assert (existsb (N.eqb slash) n = true); [|congruence].
    apply existsb_exists. exists slash. split; [exact Hin | apply N.eqb_refl].
  - intros ->. discriminate Hd.
  - intros ->. discriminate Hdd.
Qed.

Lemma normalizeStep_plain (allow : bool) (res : list jsstring) (n : jsstring) :
  isPlainName n = true -> pt.normalizeStep allow res n = res ++ [n].
Proof.
  intros H. destruct (isPlainName_spec n H) as (Hne & _ & Hd & Hdd).
  unfold pt.normalizeStep, jsEqb.
  rewrite (isEmpty_false n Hne).
  rewrite (bool_decide_eq_false_2 _ Hd), (bool_decide_eq_false_2 _ Hdd).
  reflexivity.
Qed.

Lemma lastIsSlash_plain (n : jsstring) :
  isPlainName n = true -> pt.lastIsSlash n = false.
Proof.
  intros H. destruct (isPlainName_spec n H) as (Hne & Hns & _ & _).
  unfold pt.lastIsSlash. destruct (last n) as [c|] eqn:E; [|reflexivity].
  destruct (N.eqb_spec c slash) as [->|]; [|reflexivity].
  exfalso. apply Hns. apply last_Some in E as [l' ->].
  apply in_or_app. right. now left.
Qed.

Lemma normalize_dir_name (a n : jsstring) :
  a <> [] -> isPlainName n = true ->
  pt.normalize (a ++ [slash] ++ n) = dirPrefix a ++ n.
Proof.
  intros Ha Hn. destruct (isPlainName_spec n Hn) as (Hne & Hns & _).
  unfold pt.normalize, dirPrefix.
  assert (Habs : pt.isAbsolute (a ++ [slash] ++ n) = pt.isAbsolute a)
    by now destruct a.
  rewrite Habs, (lastIsSlash_component a n Hne Hns).
  rewrite splitOn_app_sep, (splitOn_no_sep slash n Hns).
  unfold pt.normalizeArray. rewrite fold_left_app. simpl fold_left.
  set (res := fold_left (pt.normalizeStep (negb (pt.isAbsolute a)))
                        (splitOn slash a) []).
  rewrite (normalizeStep_plain _ res n Hn), joinWith_snoc.
  rewrite andb_false_r.
  assert (Hbody : isEmpty (match res with
                           | [] => n
                           | _ :: _ => joinWith [slash] res ++ [slash] ++ n
                           end) = false).
  { destruct res; [now apply isEmpty_false|].
    apply isEmpty_false. intros Hnil. apply app_eq_nil in Hnil as [_ Hnil].
    discriminate Hnil. }
  rewrite Hbody. simpl andb. cbv iota.
  destruct res; [now rewrite app_nil_r|]. now rewrite <- !app_assoc.
Qed.

Lemma normalize_name (n : jsstring) :
  isPlainName n = true -> pt.normalize n = n.
Proof.
  intros Hn. destruct (isPlainName_spec n Hn) as (Hne & Hns & _).
  unfold pt.normalize.
  assert (Habs : pt.isAbsolute n = false).
  { destruct n as [|c n]; [contradiction|]. simpl.
    destruct (N.eqb_spec c slash) as [->|]; [|reflexivity].
    exfalso. apply Hns. now left. }
  rewrite Habs, (lastIsSlash_plain n Hn), (splitOn_no_sep slash n Hns).
  unfold pt.normalizeArray. simpl fold_left.
  rewrite (normalizeStep_plain _ [] n Hn). simpl joinWith.
  rewrite (isEmpty_false n Hne). simpl. now rewrite andb_false_r.
Qed.

(** [join(dir, name)] is a prefix that depends on the directory only,
    followed by the name; so it is injective in the name. *)
Lemma joinStrings_plain (a n : jsstring) :
  isPlainName n = true ->
  pt.joinStrings [a; n] = (if isEmpty a then [] else dirPrefix a) ++ n.
Proof.
  intros Hn. destruct (isPlainName_spec n Hn) as (Hne & _).
  unfold pt.joinStrings. simpl List.filter. rewrite (isEmpty_false n Hne).
  destruct a as [|c a]; simpl negb; cbv iota.
  - simpl joinWith. now rewrite normalize_name.
  - change (joinWith [slash] [c :: a; n]) with ((c :: a) ++ [slash] ++ n).
    now rewrite normalize_dir_name.
Qed.


(** ** metaAtPath on the registries that register builds *)

(** On any registry: a directory other than the root, in its directory form
    and as the parent of a file, reads the entry under its own path. *)
Lemma metaAtPath_directory_form (this : Statil) (d : jsstring) :
  metaAtPath this (d ++ str "/") = getProp (meta this) d.
Proof.
  unfold metaAtPath, pt.lastIsSlash. change (str "/") with [slash].
  rewrite last_snoc. simpl. now rewrite removelast_last.
Qed.

Lemma metaAtPath_file_form (this : Statil) (d f : jsstring) :
  d <> [] -> d <> str "/" -> f <> [] -> ~ In slash f ->
  metaAtPath this (d ++ str "/" ++ f) = getProp (meta this) d.
Proof.
  intros Hd Hroot Hf Hns.
  unfold metaAtPath. change (str "/") with [slash].
  rewrite lastIsSlash_component by assumption.
  now rewrite dirname_component.
Qed.

(** The root directory: a file directly inside "/" reads the entry under
    "/", a file directly inside "//" the entry under "//". *)
Lemma dirnameEnd_root (f : jsstring) (k : nat) (b : bool) :
  ~ In slash f -> (k <= length f)%nat ->
  pt.dirnameEnd (slash :: f) k b = None.
Proof.
  intros Hns. revert b. induction k as [|k IH]; intros b Hk; [reflexivity|].
  cbn [pt.dirnameEnd].
  assert (Hc : charCodeAt (slash :: f) (S k) <> Some slash).
  { unfold charCodeAt. cbn [nth_error]. intros Hn.
    apply Hns. eapply nth_error_In. exact Hn. }
  rewrite bool_decide_eq_false_2 by exact Hc. apply IH. lia.
Qed.

Lemma dirname_root_file (f : jsstring) :
  ~ In slash f -> pt.dirname ([] ++ [slash] ++ f) = str "/".
Proof.
  intros Hns. unfold pt.dirname. cbn [app isEmpty pt.isAbsolute].
  replace (length (slash :: f) - 1)%nat with (length f) by (simpl; lia).
  rewrite (dirnameEnd_root f (length f) true Hns) by lia.
  now rewrite N.eqb_refl.
Qed.

Lemma dirname_double_root_file (f : jsstring) :
  f <> [] -> ~ In slash f -> pt.dirname (str "/" ++ [slash] ++ f) = str "//".
Proof.
  intros Hf Hns. unfold pt.dirname.
  change (str "/") with [slash].
  replace (length ([slash] ++ [slash] ++ f) - 1)%nat
    with (length [slash] + S (length f - 1))%nat.
  2:{ rewrite !length_app. simpl. destruct f; [contradiction|]. simpl. lia. }
  rewrite dirnameEnd_component; [reflexivity|discriminate|assumption|].
  destruct f; [contradiction|]. simpl. lia.
Qed.

(** ** What [register] writes into the metadata registry *)

Lemma splitOn_parts (sep : N) (s p : jsstring) :
  In p (splitOn sep s) -> ~ In sep p.
Proof.
  revert p. induction s as [|c s IH]; intros p Hin.
  - destruct Hin as [<-|[]]. intros [].
  - simpl in Hin. destruct (N.eqb_spec c sep) as [->|Hc].
    + destruct Hin as [<-|Hin]; [intros []|now apply IH].
    + pose proof (splitOn_not_nil sep s) as Hne.
      destruct (splitOn sep s) as [|p0 ps] eqn:E; [contradiction|].
      destruct Hin as [<-|Hin].
      * intros [->|Hp0]; [contradiction|].
        revert Hp0. apply IH. now left.
      * apply IH. now right.
Qed.

Lemma Forall_removelast {A} (P : A -> Prop) (l : list A) :
  Forall P l -> Forall P (removelast l).
Proof.
  induction 1 as [|x l Hx Hl IH]; [constructor|].
  simpl. destruct l; [constructor|]. now constructor.
Qed.

Lemma normalizeStep_good (allow : bool) (res : list jsstring) (p : jsstring) :
  Forall goodPart res -> ~ In slash p ->
  Forall goodPart (pt.normalizeStep allow res p).
Proof.
  intros Hres Hp. unfold pt.normalizeStep.
  destruct (isEmpty p) eqn:Hempty; cbn [orb]; [exact Hres|].
  assert (Hgood : Forall goodPart (res ++ [p])).
  { apply Forall_app. split; [exact Hres|].
    constructor; [|constructor]. split; [now destruct p|exact Hp]. }
  destruct (jsEqb p (str ".")); [exact Hres|].
  destruct (jsEqb p (str "..")); [|exact Hgood].
  destruct (last res).
  - destruct (negb _); [now apply Forall_removelast|].
    now destruct allow.
  - now destruct allow.
Qed.

Lemma normalizeArray_good (parts : list jsstring) (allow : bool) :
  (forall p, In p parts -> ~ In slash p) ->
  Forall goodPart (pt.normalizeArray parts allow).
Proof.
  unfold pt.normalizeArray.
  assert (H : forall res, Forall goodPart res ->
                (forall p, In p parts -> ~ In slash p) ->
                Forall goodPart (fold_left (pt.normalizeStep allow) parts res)).
  { induction parts as [|p parts IH]; intros res Hres Hparts; [exact Hres|].
    simpl. apply IH.
    - apply normalizeStep_good; [exact Hres|]. apply Hparts. now left.
    - intros q Hq. apply Hparts. now right. }
  intros Hparts. apply H; [constructor|exact Hparts].
Qed.

Lemma splitOn_joinWith (res : list jsstring) :
  res <> [] -> Forall goodPart res ->
  splitOn slash (joinWith [slash] res) = res.
Proof.
  induction res as [|p res IH]; intros Hne Hgood; [contradiction|].
  inversion Hgood as [|? ? [_ Hp] Hres]; subst.
  destruct res as [|q res].
  - now apply splitOn_no_sep.
  - change (joinWith [slash] (p :: q :: res))
      with (p ++ [slash] ++ joinWith [slash] (q :: res)).
    rewrite splitOn_app_sep, (splitOn_no_sep slash p Hp), IH;
      [reflexivity|discriminate|exact Hres].
Qed.

Lemma dropWhile_good (l : list jsstring) :
  Forall goodPart l -> dropWhile isEmpty l = l.
Proof.
  intros H. destruct H as [|p l [Hp _] _]; [reflexivity|].
  simpl. now rewrite (isEmpty_false p Hp).
Qed.

Lemma trim_good (l : list jsstring) : Forall goodPart l -> pt.trim l = l.
Proof.
  intros H. unfold pt.trim. rewrite (dropWhile_good l H).
  rewrite dropWhile_good by now apply Forall_rev.
  apply rev_involutive.
Qed.

(** With an absolute working directory, the parts that [relative] compares
    are the parts of the normal form: none is empty. *)
Lemma resolved_parts (cwd path : jsstring) :
  pt.isAbsolute cwd = true ->
  Forall goodPart (pt.trim (splitOn slash (skipn 1 (pt.resolve cwd path)))).
Proof.
  intros Hcwd. unfold pt.resolve.
  set (fa := if isEmpty path then (cwd ++ [slash], pt.isAbsolute cwd)
             else if pt.isAbsolute path then (path ++ [slash], true)
             else (cwd ++ [slash] ++ path ++ [slash], pt.isAbsolute cwd)).
  assert (Habs : snd fa = true).
  { subst fa. destruct (isEmpty path); [exact Hcwd|].
    destruct (pt.isAbsolute path); [reflexivity|exact Hcwd]. }
  destruct fa as [full isAbs]. cbn [snd] in Habs. subst isAbs.
  cbn [negb app isEmpty skipn].
  set (res := pt.normalizeArray (splitOn slash full) false).
  assert (Hres : Forall goodPart res).
  { apply normalizeArray_good. intros p. apply splitOn_parts. }
  clearbody res. destruct res as [|p res'].
  - cbv. constructor.
  - rewrite drop_0, splitOn_joinWith by (discriminate || assumption).
    now rewrite trim_good.
Qed.

Lemma joinWith_head (l : list jsstring) :
  Forall goodPart l -> head (joinWith [slash] l) <> Some slash.
Proof.
  intros H. destruct H as [|p l [Hp Hns] _]; [discriminate|].
  destruct p as [|c p]; [contradiction|].
  assert (Hc : c <> slash) by (intros ->; apply Hns; now left).
  destruct l; cbn; congruence.
Qed.

Lemma relative_head (cwd from to : jsstring) :
  pt.isAbsolute cwd = true ->
  head (pt.relative cwd from to) <> Some slash.
Proof.
  intros Hcwd. unfold pt.relative. apply joinWith_head.
  apply Forall_app. split.
  - induction (skipn _ _) as [|x l IH]; constructor; [|exact IH].
    split; [discriminate|]. vm_compute. intuition discriminate.
  - apply Forall_drop. now apply resolved_parts.
Qed.

Lemma dirnameEnd_positive (path : jsstring) (i : nat) (b : bool) (e : nat) :
  pt.dirnameEnd path i b = Some e -> (1 <= e)%nat.
Proof.
  revert b. induction i as [|i IH]; intros b H; [discriminate H|].
  cbn [pt.dirnameEnd] in H.
  destruct (bool_decide _).
  - destruct (negb b); [injection H as <-; lia|now apply IH in H].
  - now apply IH in H.
Qed.

(** The directory of a relative path is never empty and never starts
    with '/'. *)
Lemma dirname_of_relative (r : jsstring) :
  head r <> Some slash ->
  pt.dirname r <> [] /\ head (pt.dirname r) <> Some slash.
Proof.
  intros Hhead. unfold pt.dirname.
  destruct r as [|c r]; [split; discriminate|]. cbn [isEmpty].
  assert (Hc : c <> slash) by (intros ->; now apply Hhead).
  assert (Habs : pt.isAbsolute (c :: r) = false).
  { simpl. now apply N.eqb_neq. }
  rewrite Habs.
  destruct (pt.dirnameEnd (c :: r) (length (c :: r) - 1) true) as [e|] eqn:E.
  - apply dirnameEnd_positive in E. cbn [andb].
    unfold slice. rewrite Nat.sub_0_r, drop_0.
    destruct e as [|e]; [lia|]. cbn. split; congruence.
  - split; discriminate.
Qed.

Section Registered.

Variable stripExt : jsstring -> jsstring.
Variable cwd : jsstring.
Variable safeLoad : jsstring -> result value.
Variable lodashTemplate : jsstring -> Statil -> result template.
Hypothesis cwd_absolute : pt.isAbsolute cwd = true.

(** The keys of the metadata registry are directories of relative paths. *)
Lemma registered_meta_keys (this : Statil) (k : jsstring) :
  registered stripExt cwd safeLoad lodashTemplate this ->
  is_Some (meta this !! k) ->
  k <> [] /\ head k <> Some slash.
Proof using cwd_absolute.
  intros Hreg. revert k.
  induction Hreg as [rename|this this' source path _ IH Hcall]; intros k Hk.
  - simpl in Hk. rewrite lookup_empty in Hk. now destruct Hk.
  - unfold register in Hcall.
    apply bind_Ok_inv in Hcall as (_ & _ & Hcall).
    destruct (jsEqb _ _ || jsEqb _ _).
    + destruct (truthy _); [discriminate Hcall|].
      apply bind_Ok_inv in Hcall as (parsed & _ & Hcall).
      injection Hcall as <-. cbn [meta] in Hk.
      destruct (decide (pt.dirname (pt.relative cwd cwd path) = k)) as [<-|Hne].
      * apply dirname_of_relative. now apply relative_head.
      * rewrite lookup_insert_ne in Hk by exact Hne. now apply IH.
    + apply bind_Ok_inv in Hcall as (compiled & _ & Hcall).
      injection Hcall as <-. now apply IH.
Qed.

Lemma registered_no_root_entry (this : Statil) (k : jsstring) :
  registered stripExt cwd safeLoad lodashTemplate this ->
  k = [] \/ head k = Some slash ->
  getProp (meta this) k = VUndefined.
Proof using cwd_absolute.
  intros Hreg Hk. unfold getProp.
  destruct (meta this !! k) as [v|] eqn:E; [|reflexivity].
  destruct (registered_meta_keys this k Hreg) as [Hne Hhead]; [now exists v|].
  destruct Hk; contradiction.
Qed.

End Registered.

(** C10. On every instance that [register] has built, with the working
    directory an absolute path: for every directory path [d] and every file
    basename [f] (non-empty, without '/'), [metaAtPath] of the directory
    form [d/] and of the file path [d/f] return the same entry of the
    metadata registry. *)
Theorem metaAtPath_directory_and_file :
  forall (stripExt : jsstring -> jsstring) (cwd : jsstring)
         (safeLoad : jsstring -> result value)
         (lodashTemplate : jsstring -> Statil -> result template)
         (this : Statil) (d f : jsstring),
    pt.isAbsolute cwd = true ->
    registered stripExt cwd safeLoad lodashTemplate this ->
    f <> [] -> ~ In slash f ->
    metaAtPath this (d ++ str "/") = metaAtPath this (d ++ str "/" ++ f).
Proof.
  intros stripExt cwd safeLoad lodashTemplate this d f Hcwd Hreg Hf Hns.
  rewrite metaAtPath_directory_form.
  destruct (decide (d = [])) as [->|Hd].
  - unfold metaAtPath. change (str "/") with [slash].
    rewrite lastIsSlash_component, dirname_root_file by assumption.
    rewrite !(registered_no_root_entry stripExt cwd safeLoad lodashTemplate Hcwd this)
      by (assumption || (now left) || (now right)).
    reflexivity.
  - destruct (decide (d = str "/")) as [->|Hroot].
    + unfold metaAtPath. change (str "/" ++ str "/" ++ f) with (str "/" ++ [slash] ++ f).
      rewrite lastIsSlash_component, dirname_double_root_file by assumption.
      rewrite !(registered_no_root_entry stripExt cwd safeLoad lodashTemplate Hcwd this)
        by (assumption || (now left) || (now right)).
      reflexivity.
    + now rewrite metaAtPath_file_form.
Qed.

Lemma metaAtPath_directory_and_file_witness :
  metaAtPath sample.registeredSite (str "a" ++ str "/")
  = metaAtPath sample.registeredSite (str "a" ++ str "/" ++ str "c.html").
Proof.
  refine (metaAtPath_directory_and_file sample.stripExt sample.cwd
            sample.safeLoad sample.lodashTemplate sample.registeredSite
            (str "a") (str "c.html") _ _ _ _).
  - reflexivity.
  - apply (registered_register _ _ _ _ (newStatil None) _
             (str "x: 1") (str "a/meta.yaml") (registered_new _ _ _ _ None)).
    vm_compute. reflexivity.
  - discriminate.
  - vm_compute. intuition discriminate.
Defined.

(** On a registry written by hand the root directory stands apart: its
    directory form "/" reads the entry under the empty key, a file "/index"
    directly inside it the entry under "/". No call of [register] writes
    under either key. *)
Remark metaAtPath_root_by_hand :
  let this := {| templates := [];
                 meta := <[str "/" := VObj (<[str "ignore" := VStr (str "^_")]> ∅)]> ∅;
                 rename := None |} in
  metaAtPath this ([] ++ str "/") = VUndefined
  /\ metaAtPath this ([] ++ str "/" ++ str "index")
     = VObj (<[str "ignore" := VStr (str "^_")]> ∅).
Proof. split; vm_compute; reflexivity. Qed.

(** ** Echo *)

Section Echo.

Variable split : jsstring -> list jsstring.
Variable stripExt : jsstring -> jsstring.
Variable this : Statil.
Variable path : jsstring.
Variable data : value.
Variables m legend e1 e2 e3 : obj.
Variables g n1 n2 n3 : jsstring.

Hypothesis Hmeta : metaAtPath this path = VObj m.
Hypothesis Hlegend : fileLegend this path = VObj legend.
Hypothesis Hecho : legend !! str "echo" = Some (VStr g).
Hypothesis Hg : g <> [].
Hypothesis Hgroup : m !! g = Some (VArr [VObj e1; VObj e2; VObj e3]).
Hypothesis Hn1 : e1 !! str "name" = Some (VStr n1).
Hypothesis Hn2 : e2 !! str "name" = Some (VStr n2).
Hypothesis Hn3 : e3 !! str "name" = Some (VStr n3).

(** The locals before the echo: the caller's data under the legend, with
    the template's own name. *)
Let base : obj :=
  <[str "name" := VStr (pt.basename path)]> (legend ∪ statics.Hash data).




End Echo.




(** The echo example of the specification, rendered: three output paths,
    each holding the rendering made with its own [$path]. *)
Example renderTemplate_echoSite :
  renderTemplate sample.split sample.stripExt sample.echoSite (str "t") VUndefined
  = Ok (<[str "x1" := VStr (str "x1")]>
          (<[str "x2" := VStr (str "x2")]>
             (<[str "x3" := VStr (str "x3")]> ∅))).
Proof. vm_compute. reflexivity. Qed.

(** ** String literals: escaping and reading *)

Lemma replaceSpecialChars_cons (c : N) (s : jsstring) :
  replaceSpecialChars (c :: s)
  = (if reSpecialChars c then escapeSpecialChar c else [c])
    ++ replaceSpecialChars s.
Proof. reflexivity. Qed.

(** Reading the escaped form of one code unit yields the unit; the rest of
    the literal is read after it. *)
Lemma readLiteral_escaped_unit (c : N) (rest : jsstring) :
  readLiteral ((if reSpecialChars c then escapeSpecialChar c else [c]) ++ rest)
  = option_map (cons c) (readLiteral rest).
Proof.
  destruct (N.eqb_spec c 92) as [->|H92]; [reflexivity|].
  destruct (N.eqb_spec c 39) as [->|H39]; [reflexivity|].
  destruct (N.eqb_spec c 10) as [->|H10]; [reflexivity|].
  destruct (N.eqb_spec c 13) as [->|H13]; [reflexivity|].
  destruct (N.eqb_spec c 8232) as [->|H8232]; [reflexivity|].
  destruct (N.eqb_spec c 8233) as [->|H8233]; [reflexivity|].
  assert (E : reSpecialChars c = false).
  { unfold reSpecialChars.
    repeat match goal with
           | H : c <> ?k |- _ => apply N.eqb_neq in H; rewrite H; clear H
           end.
    reflexivity. }
  rewrite E. simpl app. cbn [readLiteral].
  unfold reSpecialChars in E. rewrite !orb_false_iff in E.
  destruct E as [[[[[E39 E10] E13] E8232] E8233] E92].
  unfold isLineTerminator. now rewrite E92, E39, E10, E13, E8232, E8233.
Qed.

(** The round trip of a literal segment: the code unit sequence read back
    from the escaped content is the content. *)
Lemma readLiteral_replaceSpecialChars (s : jsstring) :
  readLiteral (replaceSpecialChars s) = Some s.
Proof.
  induction s as [|c s IH]; [reflexivity|].
  now rewrite replaceSpecialChars_cons, readLiteral_escaped_unit, IH.
Qed.

Lemma replaceSpecialChars_empty (s : jsstring) :
  isEmpty (replaceSpecialChars s) = isEmpty s.
Proof.
  destruct s as [|c s]; [reflexivity|].
  rewrite replaceSpecialChars_cons. unfold escapeSpecialChar.
  destruct (reSpecialChars c); [|reflexivity].
  destruct (specialEscapes c) as [e|]; [|reflexivity].
  now destruct (isEmpty e).
Qed.

(** ** The scan of the source *)

Lemma matchesFrom_no_delimiter (s : jsstring) (fuel offset : nat) :
  hasDelimiter s = false -> (length s < fuel)%nat ->
  matchesFrom fuel offset s
  = [ {| m_match := []; m_expressionValue := None; m_statementValue := None;
         m_offset := (offset + length s)%nat |} ].
Proof.
  revert fuel offset. induction s as [|c s IH]; intros fuel offset Hno Hfuel.
  - destruct fuel; [simpl in Hfuel; lia|]. simpl.
    now rewrite Nat.add_0_r.
  - destruct fuel; [simpl in Hfuel; lia|].
    cbn [hasDelimiter] in Hno. cbn [matchesFrom].
    destruct (reExpression (c :: s)); [discriminate Hno|].
    destruct (reStatement (c :: s)); [discriminate Hno|].
    rewrite IH; [|exact Hno|simpl in Hfuel; lia].
    simpl length.
    now replace (S offset + length s)%nat with (offset + S (length s))%nat by lia.
Qed.

Lemma slice_all (s : jsstring) : slice s 0 (length s) = s.
Proof. unfold slice. rewrite Nat.sub_0_r, drop_0. apply firstn_all. Qed.

Lemma codeBodyOf_no_delimiter (s : jsstring) :
  hasDelimiter s = false ->
  codeBodyOf s
  = if isEmpty s then [] else [AppendLiteral (replaceSpecialChars s)].
Proof.
  intros Hno. unfold codeBodyOf, reDelimitersMatches.
  rewrite (matchesFrom_no_delimiter s _ 0 Hno) by lia.
  simpl fold_left. unfold onMatch. cbn [m_offset m_statementValue m_expressionValue snd].
  change (0 + length s)%nat with (length s).
  rewrite slice_all, replaceSpecialChars_empty.
  now destruct (isEmpty s).
Qed.

(** ** Templates without delimiters *)

(** C5. For every source in which neither delimiter pattern matches,
    [compileTemplate] returns a template, and rendering it with any context
    returns the source, code unit for code unit: what the compiler escaped
    in the string literal is what the literal evaluates to. *)
Theorem template_without_delimiters_renders_source :
  forall (evalExpression : jsstring -> obj -> jsstring -> result evaluation)
         (hostParses : list instr -> bool)
         (hostRun : list instr -> obj -> jsstring -> result jsstring)
         (source : jsstring) (context : obj),
    hasDelimiter source = false ->
    exists compiled,
      compileTemplate evalExpression hostParses hostRun source context
      = Ok compiled
      /\ forall ctx : value, compiled ctx = Ok source.
Proof.
  intros evalExpression hostParses hostRun source context Hno.
  unfold compileTemplate. rewrite (codeBodyOf_no_delimiter source Hno).
  destruct source as [|c source].
  - eexists. split; [reflexivity|]. reflexivity.
  - cbn [isEmpty]. set (s := c :: source).
    assert (Hc : compiles hostParses [AppendLiteral (replaceSpecialChars s)] = true).
    { unfold compiles. cbn [forallb literalReads isLiteral].
      now rewrite readLiteral_replaceSpecialChars. }
    rewrite Hc. eexists. split; [reflexivity|].
    intros ctx. cbn [run]. now rewrite readLiteral_replaceSpecialChars.
Qed.

Lemma template_without_delimiters_renders_source_witness :
  exists compiled,
    compileTemplate sample.evalExpression (fun _ => false)
                    (fun _ _ _ => Throw (HostError 0))
                    (str "it's 100% {x} \n") ∅
    = Ok compiled
    /\ forall ctx : value, compiled ctx = Ok (str "it's 100% {x} \n").
Proof.
  apply template_without_delimiters_renders_source.
  vm_compute. reflexivity.
Defined.

(** ** The scan around a value delimiter *)








Lemma onMatch_emitted (string : jsstring) (index : nat) (body : list instr)
    (m : rmatch) :
  onMatch string (index, body) m
  = ((m_offset m + length (m_match m))%nat, body ++ emitted string index m).
Proof.
  unfold onMatch, emitted, literalOf. f_equal.
  destruct (isEmpty (replaceSpecialChars _));
    destruct (m_statementValue m) as [s|]; try destruct (isEmpty s);
    destruct (m_expressionValue m) as [e|]; try destruct (isEmpty e);
    simpl; rewrite <- ?app_assoc, ?app_nil_r; reflexivity.
Qed.


Lemma fold_onMatch_body (string : jsstring) (ms : list rmatch) (index : nat)
    (body0 body : list instr) :
  snd (fold_left (onMatch string) ms (index, body0 ++ body))
  = body0 ++ snd (fold_left (onMatch string) ms (index, body)).
Proof.
  revert index body. induction ms as [|m ms IH]; intros index body; [reflexivity|].
  cbn [fold_left]. rewrite !onMatch_emitted, <- app_assoc. apply IH.
Qed.















(** ** The scan around a statement delimiter *)









(** ** Literal lines and code lines of a scan *)

Lemma lazyCapture_nonempty (cl acc t cap rest : jsstring) :
  lazyCapture cl acc t = Some (cap, rest) -> cap <> [].
Proof.
  revert acc. induction t as [|c t IH]; intros acc H; [discriminate H|].
  cbn [lazyCapture] in H. destruct (closes cl t).
  - injection H as <- _. now destruct acc.
  - now apply IH in H.
Qed.

Lemma matchDelimiter_nonempty (op cl s cap rest : jsstring) :
  matchDelimiter op cl s = Some (cap, rest) -> cap <> [].
Proof.
  unfold matchDelimiter. destruct (stripPrefix op s) as [t|]; [|discriminate].
  induction t as [|c t IH]; intros H; [discriminate H|].
  cbn [afterOpen] in H. destruct (isSpace c).
  - destruct (afterOpen cl t) as [r|].
    + injection H as ->. now apply IH.
    + now apply lazyCapture_nonempty in H.
  - now apply lazyCapture_nonempty in H.
Qed.

Lemma emitted_literals_read (string : jsstring) (index : nat) (m : rmatch) :
  forallb literalReads (emitted string index m) = true.
Proof.
  unfold emitted, literalOf. rewrite !forallb_app.
  destruct (isEmpty (replaceSpecialChars _)); cbn [forallb literalReads];
    rewrite ?readLiteral_replaceSpecialChars;
    destruct (m_statementValue m) as [s|]; try destruct (isEmpty s);
    destruct (m_expressionValue m) as [e|]; try destruct (isEmpty e);
    reflexivity.
Qed.

Lemma fold_onMatch_from (string : jsstring) (ms : list rmatch) (index : nat)
    (body : list instr) :
  snd (fold_left (onMatch string) ms (index, body))
  = body ++ snd (fold_left (onMatch string) ms (index, [])).
Proof.
  rewrite <- (app_nil_r body) at 1. apply fold_onMatch_body.
Qed.

(** Every string literal of a code body reads. *)
Lemma scan_literals_read (string : jsstring) (ms : list rmatch) (index : nat) :
  forallb literalReads (snd (fold_left (onMatch string) ms (index, []))) = true.
Proof.
  revert index. induction ms as [|m ms IH]; intros index; [reflexivity|].
  cbn [fold_left]. rewrite onMatch_emitted, fold_onMatch_from.
  cbn [app]. rewrite forallb_app, emitted_literals_read. apply IH.
Qed.

Lemma emitted_code (string : jsstring) (index : nat) (m : rmatch) :
  carriesCode m -> forallb isLiteral (emitted string index m) = false.
Proof.
  unfold emitted. rewrite !forallb_app.
  intros [(e & -> & He)|(c & -> & Hc)].
  - rewrite (isEmpty_false e He). cbn [forallb isLiteral].
    now rewrite !andb_false_r.
  - rewrite (isEmpty_false c Hc). cbn [forallb isLiteral andb].
    now rewrite andb_false_r.
Qed.

Lemma scan_code (string : jsstring) (ms : list rmatch) (index : nat)
    (m : rmatch) :
  In m ms -> carriesCode m ->
  forallb isLiteral (snd (fold_left (onMatch string) ms (index, []))) = false.
Proof.
  revert index. induction ms as [|m' ms IH]; intros index Hin Hm; [destruct Hin|].
  cbn [fold_left]. rewrite onMatch_emitted, fold_onMatch_from.
  cbn [app]. rewrite forallb_app. destruct Hin as [->|Hin].
  - now rewrite emitted_code.
  - rewrite (IH _ Hin Hm). apply andb_false_r.
Qed.

Lemma matchesFrom_code (s : jsstring) :
  forall (fuel offset : nat),
    hasDelimiter s = true -> (length s < fuel)%nat ->
    exists m, In m (matchesFrom fuel offset s) /\ carriesCode m.
Proof.
  induction s as [|c s IH]; intros fuel offset Hd Hfuel.
  - destruct fuel; [simpl in Hfuel; lia|].
    cbn [hasDelimiter] in Hd. cbn [matchesFrom].
    destruct (reExpression []) as [[e rest]|] eqn:Ee.
    + eexists. split; [now left|]. left. exists e. split; [reflexivity|].
      now apply matchDelimiter_nonempty in Ee.
    + destruct (reStatement []) as [[c rest]|] eqn:Es; [|discriminate Hd].
      eexists. split; [now left|]. right. exists c. split; [reflexivity|].
      now apply matchDelimiter_nonempty in Es.
  - destruct fuel; [simpl in Hfuel; lia|].
    cbn [hasDelimiter] in Hd. cbn [matchesFrom].
    destruct (reExpression (c :: s)) as [[e rest]|] eqn:Ee.
    + eexists. split; [now left|]. left. exists e. split; [reflexivity|].
      now apply matchDelimiter_nonempty in Ee.
    + destruct (reStatement (c :: s)) as [[c' rest]|] eqn:Es.
      * eexists. split; [now left|]. right. exists c'. split; [reflexivity|].
        now apply matchDelimiter_nonempty in Es.
      * apply IH; [exact Hd|simpl in Hfuel; lia].
Qed.

Lemma codeBodyOf_all_literal (s : jsstring) :
  forallb isLiteral (codeBodyOf s) = negb (hasDelimiter s).
Proof.
  destruct (hasDelimiter s) eqn:Hd; cbn [negb].
  - unfold codeBodyOf, reDelimitersMatches.
    destruct (matchesFrom_code s (S (length s)) 0 Hd) as (m & Hin & Hm); [lia|].
    now apply (scan_code s _ 0 m).
  - rewrite (codeBodyOf_no_delimiter s Hd). now destruct (isEmpty s).
Qed.

(** ** The value delimiter *)

Section Render.

Variable evalExpression : jsstring -> obj -> jsstring -> result evaluation.
Variable hostRun : list instr -> obj -> jsstring -> result jsstring.


End Render.





(** The example of the specification, written for this compiler (the
    context is reached through [$]): a name that is set is printed, a name
    that is not set leaves nothing. A fragment sees the output: one that
    assigns [__out] replaces what was written before it. *)
Example render_hi_name :
  (exists compiled,
      compileTemplate sample.evalExpression (fun _ => true)
                      (fun _ _ _ => Throw (HostError 0))
                      (str "<p>Hi {{ $.name }}!</p>") ∅ = Ok compiled
      /\ compiled (VObj (<[str "name" := VStr (str "Ada")]> ∅))
         = Ok (str "<p>Hi Ada!</p>")
      /\ compiled (VObj ∅) = Ok (str "<p>Hi !</p>")
      /\ compiled (VObj (<[str "name" := VNull]> ∅)) = Ok (str "<p>Hi !</p>"))
  /\ (exists compiled,
        compileTemplate sample.evalExpression (fun _ => true)
                        (fun _ _ _ => Throw (HostError 0))
                        (str "draft{{ __out = '' }}final") ∅ = Ok compiled
        /\ compiled (VObj ∅) = Ok (str "final")).
Proof.
  split.
  - eexists. split; [reflexivity|].
    repeat split; vm_compute; reflexivity.
  - eexists. split; [reflexivity|]. vm_compute. reflexivity.
Qed.

(* ===================================================================== *)
(** * Further properties of the code *)
(* ===================================================================== *)

(** ** $entitle, called several times *)

Lemma joinWith_snoc_merge (sep : jsstring) (l : list jsstring) (a b : jsstring) :
  joinWith sep (l ++ [a; b]) = joinWith sep (l ++ [a ++ sep ++ b]).
Proof.
  induction l as [|x l IH]; [reflexivity|].
  destruct l as [|y l].
  - cbn. reflexivity.
  - change (joinWith sep ((x :: y :: l) ++ [a; b]))
      with (x ++ sep ++ joinWith sep ((y :: l) ++ [a; b])).
    change (joinWith sep ((x :: y :: l) ++ [a ++ sep ++ b]))
      with (x ++ sep ++ joinWith sep ((y :: l) ++ [a ++ sep ++ b])).
    now rewrite IH.
Qed.

Lemma entitle_titled (ctx : obj) (t old : jsstring) :
  t <> [] -> ctx !! str "$title" = Some (VStr old) -> old <> [] ->
  entitle (VStr t) (VObj ctx)
  = VObj (<[str "$title" := VStr (t ++ str " | " ++ old)]> ctx).
Proof.
  intros Ht Hold Hne. unfold entitle; simpl. rewrite (isEmpty_false t Ht).
  unfold getProp. rewrite Hold. simpl. now rewrite (isEmpty_false old Hne).
Qed.

Lemma entitle_untitled (ctx : obj) (t : jsstring) :
  t <> [] ->
  ctx !! str "$title" = None \/ ctx !! str "$title" = Some (VStr []) ->
  entitle (VStr t) (VObj ctx) = VObj (<[str "$title" := VStr t]> ctx).
Proof.
  intros Ht Hun. unfold entitle; simpl. rewrite (isEmpty_false t Ht).
  unfold getProp. destruct Hun as [-> | ->]; reflexivity.
Qed.

Lemma entitleAll_titled (titles : list jsstring) :
  forall (ctx : obj) (old : jsstring),
    Forall (fun t => t <> []) titles ->
    ctx !! str "$title" = Some (VStr old) -> old <> [] ->
    entitleAll titles (VObj ctx)
    = VObj (<[str "$title" := VStr (joinWith (str " | ") (rev titles ++ [old]))]> ctx).
Proof.
  induction titles as [|t titles IH]; intros ctx old Hall Hold Hne.
  - cbn. now rewrite insert_id.
  - inversion Hall as [|? ? Ht Hts]; subst.
    cbn [entitleAll fold_left]. rewrite (entitle_titled ctx t old Ht Hold Hne).
    fold (entitleAll titles
            (VObj (<[str "$title" := VStr (t ++ str " | " ++ old)]> ctx))).
    rewrite (IH _ (t ++ str " | " ++ old) Hts).
    + rewrite insert_insert_eq. cbn [rev].
      rewrite <- app_assoc. cbn [app].
      now rewrite joinWith_snoc_merge.
    + apply lookup_insert_eq.
    + destruct t; [contradiction|discriminate].
Qed.

(** X1. Calls of [$entitle] stack: made with the non-empty titles
    [t1 ... tn] in this order on a context without title, they leave
    [$title] equal to [tn | ... | t1], the last title first, and change no
    other field. *)
Theorem entitle_titles_stack :
  forall (ctx : obj) (titles : list jsstring),
    titles <> [] ->
    Forall (fun t => t <> []) titles ->
    ctx !! str "$title" = None \/ ctx !! str "$title" = Some (VStr []) ->
    entitleAll titles (VObj ctx)
    = VObj (<[str "$title" := VStr (joinWith (str " | ") (rev titles))]> ctx).
Proof.
  intros ctx titles Hne Hall Hun.
  destruct titles as [|t titles]; [contradiction|].
  inversion Hall as [|? ? Ht Hts]; subst.
  cbn [entitleAll fold_left]. rewrite (entitle_untitled ctx t Ht Hun).
  fold (entitleAll titles (VObj (<[str "$title" := VStr t]> ctx))).
  rewrite (entitleAll_titled titles _ t Hts (lookup_insert_eq _ _ _) Ht).
  now rewrite insert_insert_eq.
Qed.

Lemma entitle_titles_stack_witness :
  entitleAll [str "Page"; str "Section"; str "Site"] (VObj ∅)
  = VObj (<[str "$title" := VStr (str "Site | Section | Page")]> ∅).
Proof.
  refine (entitle_titles_stack ∅ [str "Page"; str "Section"; str "Site"] _ _ _).
  - discriminate.
  - repeat constructor; discriminate.
  - left. reflexivity.
Defined.

(** ** $active and $act: the exact condition *)

Lemma samePartsLength_le (a b : list jsstring) :
  (pt.samePartsLength a b <= length a)%nat.
Proof.
  revert b. induction a as [|x a IH]; intros b; [simpl; lia|].
  destruct b as [|y b]; simpl; [lia|].
  destruct (jsEqb x y); [|lia]. specialize (IH b). lia.
Qed.

Lemma samePartsLength_all (a b : list jsstring) :
  pt.samePartsLength a b = length a -> b = a ++ skipn (length a) b.
Proof.
  revert b. induction a as [|x a IH]; intros b H; [reflexivity|].
  destruct b as [|y b]; [discriminate H|]. simpl in H.
  unfold jsEqb in H. destruct (bool_decide_reflect (x = y)) as [->|]; [|discriminate H].
  injection H as H. simpl. f_equal. now apply IH.
Qed.

Lemma samePartsLength_prefix (a rest : list jsstring) :
  pt.samePartsLength a (a ++ rest) = length a.
Proof.
  induction a as [|x a IH]; [now destruct rest|].
  simpl. unfold jsEqb. rewrite bool_decide_eq_true_2 by reflexivity.
  now rewrite IH.
Qed.

Lemma relative_parts (cwd from to : jsstring) :
  pt.relative cwd from to
  = joinWith [slash]
      (List.map (fun _ => str "..")
                (skipn (pt.samePartsLength (pathParts cwd from) (pathParts cwd to))
                       (pathParts cwd from))
       ++ skipn (pt.samePartsLength (pathParts cwd from) (pathParts cwd to))
                (pathParts cwd to)).
Proof. reflexivity. Qed.

Lemma joinWith_head_up (l : list jsstring) :
  head (joinWith [slash] (str ".." :: l)) = Some dot.
Proof. now destruct l. Qed.

(** The prefix's parts followed by parts that do not start with a dot. *)
Lemma active_when_prefix (cwd p dataPath : jsstring) (data : obj)
    (rest : list jsstring) :
  data !! str "$path" = Some (VStr dataPath) ->
  pathParts cwd dataPath = pathParts cwd p ++ rest ->
  head (joinWith [slash] rest) <> Some dot ->
  active cwd (VStr p) (VObj data) = str "active".
Proof.
  intros Hpath Hto Hhead.
  rewrite (active_first_unit cwd p dataPath data Hpath), relative_parts.
  rewrite Hto, samePartsLength_prefix, skipn_all.
  rewrite drop_app_length. cbn [List.map app].
  now rewrite bool_decide_eq_false_2.
Qed.

(** X2. [$active] answers "active" exactly when the parts of the prefix
    are the first parts of the context's [$path] (both resolved against the
    working directory) and what remains of [$path] after them does not
    start with a dot; in every other case it answers the empty string. *)
Theorem active_exactly :
  forall (cwd p dataPath : jsstring) (data : obj),
    data !! str "$path" = Some (VStr dataPath) ->
    (active cwd (VStr p) (VObj data) = str "active"
     <-> exists rest : list jsstring,
           pathParts cwd dataPath = pathParts cwd p ++ rest
           /\ head (joinWith [slash] rest) <> Some dot)
    /\ (active cwd (VStr p) (VObj data) = str "active"
        \/ active cwd (VStr p) (VObj data) = []).
Proof.
  intros cwd p dataPath data Hpath.
  rewrite (active_first_unit cwd p dataPath data Hpath), relative_parts.
  set (from := pathParts cwd p). set (to := pathParts cwd dataPath).
  split.
  - split.
    + intros Hact.
      destruct (bool_decide_reflect
                  (head (joinWith [slash]
                     (List.map (fun _ => str "..")
                               (skipn (pt.samePartsLength from to) from)
                      ++ skipn (pt.samePartsLength from to) to)) = Some dot))
        as [|Hhead]; [discriminate Hact|].
      assert (Hsame : pt.samePartsLength from to = length from).
      { pose proof (samePartsLength_le from to) as Hle.
        destruct (decide (pt.samePartsLength from to = length from)) as [|Hlt];
          [assumption|].
        exfalso. apply Hhead.
        destruct (skipn (pt.samePartsLength from to) from) as [|x l] eqn:E.
        - apply (f_equal (@length _)) in E. rewrite length_skipn in E.
          simpl in E. lia.
        - cbn [List.map app]. apply joinWith_head_up. }
      exists (skipn (length from) to). split.
      * now apply samePartsLength_all.
      * rewrite Hsame in Hhead. rewrite skipn_all in Hhead. exact Hhead.
    + intros (rest & Hto & Hhead).
      rewrite Hto, samePartsLength_prefix, skipn_all.
      rewrite drop_app_length. cbn [List.map app].
      now rewrite bool_decide_eq_false_2.
  - destruct (bool_decide _); [now right|now left].
Qed.

Lemma active_exactly_witness :
  active sample.cwd (VStr (str "/docs/"))
         (VObj (<[str "$path" := VStr (str "/docs/guide/intro")]> ∅))
  = str "active".
Proof.
  apply (proj1 (active_exactly sample.cwd (str "/docs/") (str "/docs/guide/intro")
                  (<[str "$path" := VStr (str "/docs/guide/intro")]> ∅)
                  (lookup_insert_eq _ _ _))).
  exists [str "guide"; str "intro"]. split.
  - vm_compute. reflexivity.
  - vm_compute. discriminate.
Defined.

(** X3. A context is always active for its own [$path], whatever the
    working directory, and [$act] then gives the class attribute. *)
Theorem active_for_own_path :
  forall (cwd p : jsstring) (data : obj),
    data !! str "$path" = Some (VStr p) ->
    active cwd (VStr p) (VObj data) = str "active"
    /\ act cwd (VStr p) (VObj data) = str "class=" ++ [34] ++ str "active" ++ [34].
Proof.
  intros cwd p data Hpath.
  assert (Hact : active cwd (VStr p) (VObj data) = str "active").
  { apply (active_when_prefix cwd p p data [] Hpath);
      [now rewrite app_nil_r|discriminate]. }
  split; [exact Hact|]. unfold act. now rewrite Hact.
Qed.

Lemma active_for_own_path_witness :
  active sample.cwd (VStr (str "blog/.drafts"))
         (VObj (<[str "$path" := VStr (str "blog/.drafts")]> ∅))
  = str "active".
Proof.
  exact (proj1 (active_for_own_path sample.cwd (str "blog/.drafts")
                  (<[str "$path" := VStr (str "blog/.drafts")]> ∅)
                  (lookup_insert_eq _ _ _))).
Defined.

(** X4. [$act] gives the attribute class="active" exactly when [$active]
    gives "active", and the empty string otherwise; either is empty as soon
    as the prefix is not a string, the context is not an object, or the
    context has no string [$path]. *)
Theorem act_follows_active :
  forall (cwd : jsstring) (path data : value),
    (act cwd path data = str "class=" ++ [34] ++ str "active" ++ [34]
     <-> active cwd path data = str "active")
    /\ (act cwd path data = [] <-> active cwd path data = [])
    /\ (isString path = false \/ isObject data = false
        \/ isString (getField data (str "$path")) = false ->
        active cwd path data = [] /\ act cwd path data = []).
Proof.
  intros cwd path data.
  assert (Hcases : active cwd path data = str "active" \/ active cwd path data = []).
  { unfold active. destruct (negb (isObject data)); [now right|].
    destruct path; try (now right).
    destruct (getField data (str "$path")); try (now right).
    destruct (bool_decide _); [now right|now left]. }
  split; [|split].
  - unfold act. destruct Hcases as [-> | ->]; split; intros H;
      try reflexivity; try discriminate H.
  - unfold act. destruct Hcases as [-> | ->]; split; intros H;
      try reflexivity; try discriminate H.
  - intros Hbad.
    assert (Hempty : active cwd path data = []).
    { unfold active. destruct (isObject data) eqn:Ho; cbn [negb]; [|reflexivity].
      destruct Hbad as [Hp|[Ho'|Hd]]; [| discriminate Ho' |].
      - destruct path; try discriminate Hp; reflexivity.
      - destruct path; try reflexivity.
        destruct (getField data (str "$path")); try discriminate Hd; reflexivity. }
    split; [exact Hempty|]. unfold act. now rewrite Hempty.
Qed.

Lemma act_follows_active_witness :
  active sample.cwd (VNum (Safe 3 eq_refl)) (VObj ∅) = [] /\ act sample.cwd (VNum (Safe 3 eq_refl)) (VObj ∅) = [].
Proof.
  apply (proj2 (proj2 (act_follows_active sample.cwd (VNum (Safe 3 eq_refl)) (VObj ∅)))).
  left. reflexivity.
Defined.

(** ** register: what it stores and where *)

Lemma lookupKey_setKey_eq {A} (k : jsstring) (v : A) (l : list (jsstring * A)) :
  lookupKey k (setKey k v l) = Some v.
Proof.
  induction l as [|[k' v'] l IH]; cbn.
  - unfold jsEqb. now rewrite bool_decide_eq_true_2.
  - destruct (jsEqb k k') eqn:E; cbn; rewrite ?E; [|exact IH].
    unfold jsEqb. now rewrite bool_decide_eq_true_2.
Qed.

Lemma jsEqb_eq (a b : jsstring) : a = b -> jsEqb a b = true.
Proof. intros H. unfold jsEqb. now rewrite bool_decide_eq_true_2. Qed.

Lemma jsEqb_ne (a b : jsstring) : a <> b -> jsEqb a b = false.
Proof. intros H. unfold jsEqb. now rewrite bool_decide_eq_false_2. Qed.

Lemma jsEqb_true (a b : jsstring) : jsEqb a b = true -> a = b.
Proof. unfold jsEqb. now intros H%bool_decide_eq_true_1. Qed.

Lemma lookupKey_setKey_ne {A} (k k' : jsstring) (v : A) (l : list (jsstring * A)) :
  k <> k' -> lookupKey k' (setKey k v l) = lookupKey k' l.
Proof.
  intros Hne. induction l as [|[k0 v0] l IH]; cbn [setKey lookupKey].
  - rewrite jsEqb_ne by congruence. reflexivity.
  - destruct (jsEqb k k0) eqn:E; cbn [lookupKey].
    + apply jsEqb_true in E as <-. now rewrite !jsEqb_ne by congruence.
    + now rewrite IH.
Qed.

Section RegisterStores.

Variable stripExt : jsstring -> jsstring.
Variable cwd : jsstring.
Variable safeLoad : jsstring -> result value.
Variable lodashTemplate : jsstring -> Statil -> result template.

Let reg := register stripExt cwd safeLoad lodashTemplate.
Let isMetaPath (path : jsstring) : bool :=
  jsEqb (pt.ext (pt.relative cwd cwd path)) (str ".yaml")
  || jsEqb (pt.ext (pt.relative cwd cwd path)) (str ".json").

(** A successful registration of a file that is not a metadata file. *)
Lemma register_template_inv (this this' : Statil) (source path : jsstring) :
  isMetaPath path = false ->
  reg this source path = Ok this' ->
  exists compiled,
    lodashTemplate source this = Ok compiled
    /\ this' = {| templates := setKey (stripExt (pt.relative cwd cwd path))
                                      compiled (templates this);
                  meta := meta this; rename := rename this |}.
Proof using Type.
  unfold reg, isMetaPath, register. intros Hext Hcall.
  apply bind_Ok_inv in Hcall as (_ & _ & Hcall). rewrite Hext in Hcall.
  apply bind_Ok_inv in Hcall as (compiled & Hc & Hcall).
  exists compiled. split; [exact Hc|]. now injection Hcall as <-.
Qed.

(** A successful registration of a metadata file. *)
Lemma register_meta_inv (this this' : Statil) (source path : jsstring) :
  isMetaPath path = true ->
  reg this source path = Ok this' ->
  exists parsed,
    safeLoad source = Ok parsed
    /\ truthy (getProp (meta this) (pt.dirname (pt.relative cwd cwd path))) = false
    /\ this' = {| templates := templates this;
                  meta := <[pt.dirname (pt.relative cwd cwd path) := parsed]>
                            (meta this);
                  rename := rename this |}.
Proof using Type.
  unfold reg, isMetaPath, register. intros Hext Hcall.
  apply bind_Ok_inv in Hcall as (_ & _ & Hcall). rewrite Hext in Hcall.
  destruct (truthy _) eqn:Ht; [discriminate Hcall|].
  apply bind_Ok_inv in Hcall as (parsed & Hp & Hcall).
  exists parsed. split; [exact Hp|]. split; [reflexivity|].
  now injection Hcall as <-.
Qed.

End RegisterStores.

(** X5. Registering a file that is not a metadata file compiles it and
    files the compiled template under the extension-stripped relative path:
    the call succeeds when compilation does, [renderOne] then runs that
    template for every path with the same stripped form, the templates
    under other keys, the metadata and [rename] stay as they were; when
    compilation throws, the call throws the compiler's error and stores
    nothing (the source adds the path to the message of that error; errors
    carry their kind only here). *)
Theorem register_template_then_renderOne :
  forall (stripExt : jsstring -> jsstring) (cwd : jsstring)
         (safeLoad : jsstring -> result value)
         (lodashTemplate : jsstring -> Statil -> result template)
         (this : Statil) (source path : jsstring),
    path <> [] ->
    jsEqb (pt.ext (pt.relative cwd cwd path)) (str ".yaml")
    || jsEqb (pt.ext (pt.relative cwd cwd path)) (str ".json") = false ->
    (forall compiled,
        lodashTemplate source this = Ok compiled ->
        exists this',
          register stripExt cwd safeLoad lodashTemplate this source path = Ok this'
          /\ lookupKey (stripExt (pt.relative cwd cwd path)) (templates this')
             = Some compiled
          /\ (forall q data,
                q <> [] ->
                stripExt q = stripExt (pt.relative cwd cwd path) ->
                renderOne stripExt this' q data
                = (ctx <- locals this' q (orNewHash data);; compiled ctx))
          /\ (forall k,
                k <> stripExt (pt.relative cwd cwd path) ->
                lookupKey k (templates this') = lookupKey k (templates this))
          /\ meta this' = meta this
          /\ rename this' = rename this)
    /\ (forall e,
          lodashTemplate source this = Throw e ->
          register stripExt cwd safeLoad lodashTemplate this source path = Throw e).
Proof.
  intros stripExt cwd safeLoad lodashTemplate this source path Hpath Hext.
  split.
  - intros compiled Hc. eexists. split.
    + unfold register, statics.validateTruthyString.
      rewrite (isEmpty_false path Hpath), bind_Ok, Hext, Hc. reflexivity.
    + cbn [templates meta rename]. split; [apply lookupKey_setKey_eq|].
      split; [|split; [|split; reflexivity]].
      * intros q data Hq Hstrip. unfold renderOne, statics.validateTruthyString.
        rewrite (isEmpty_false q Hq), bind_Ok. cbn [templates].
        now rewrite Hstrip, lookupKey_setKey_eq.
      * intros k Hk. apply lookupKey_setKey_ne. congruence.
  - intros e He. unfold register, statics.validateTruthyString.
    rewrite (isEmpty_false path Hpath), bind_Ok, Hext, He. reflexivity.
Qed.

Lemma register_template_then_renderOne_witness :
  exists this',
    register sample.stripExt sample.cwd sample.safeLoad sample.lodashTemplate
             sample.site (str "hello") (str "/site/a/page.html") = Ok this'
    /\ lookupKey (sample.stripExt (pt.relative sample.cwd sample.cwd
                                               (str "/site/a/page.html")))
                 (templates this')
       = Some (sample.text (str "hello")).
Proof.
  destruct (proj1 (register_template_then_renderOne sample.stripExt sample.cwd
              sample.safeLoad sample.lodashTemplate sample.site (str "hello")
              (str "/site/a/page.html") ltac:(discriminate) eq_refl)
              (sample.text (str "hello")) eq_refl)
    as (this' & Hreg & Hlook & _).
  exists this'. split; [exact Hreg|exact Hlook].
Defined.

(** A successful [register] leaves a truthy metadata entry as it is. *)
Lemma register_keeps_truthy_meta (stripExt : jsstring -> jsstring)
    (cwd : jsstring) (safeLoad : jsstring -> result value)
    (lodashTemplate : jsstring -> Statil -> result template)
    (this this' : Statil) (source path dir : jsstring) :
  truthy (getProp (meta this) dir) = true ->
  register stripExt cwd safeLoad lodashTemplate this source path = Ok this' ->
  getProp (meta this') dir = getProp (meta this) dir.
Proof.
  intros Hdir Hcall.
  destruct (jsEqb (pt.ext (pt.relative cwd cwd path)) (str ".yaml")
            || jsEqb (pt.ext (pt.relative cwd cwd path)) (str ".json")) eqn:Hext.
  - destruct (register_meta_inv _ _ _ _ _ _ _ _ Hext Hcall)
      as (parsed & _ & Hfree & ->).
    cbn [meta]. apply getProp_insert_ne. intros <-. congruence.
  - destruct (register_template_inv _ _ _ _ _ _ _ _ Hext Hcall) as (c & _ & ->).
    reflexivity.
Qed.

(** X6. The first truthy metadata of a directory is never replaced:
    whatever files are registered after it, as long as the calls succeed,
    the directory's entry stays what it was, and every further metadata
    file for that directory is refused with the duplicate-meta error. *)
Theorem register_keeps_first_meta :
  forall (stripExt : jsstring -> jsstring) (cwd : jsstring)
         (safeLoad : jsstring -> result value)
         (lodashTemplate : jsstring -> Statil -> result template)
         (files : list (jsstring * jsstring)) (this this' : Statil)
         (dir : jsstring),
    truthy (getProp (meta this) dir) = true ->
    registerAll stripExt cwd safeLoad lodashTemplate this files = Ok this' ->
    getProp (meta this') dir = getProp (meta this) dir
    /\ forall source path : jsstring,
         path <> [] ->
         jsEqb (pt.ext (pt.relative cwd cwd path)) (str ".yaml")
         || jsEqb (pt.ext (pt.relative cwd cwd path)) (str ".json") = true ->
         pt.dirname (pt.relative cwd cwd path) = dir ->
         register stripExt cwd safeLoad lodashTemplate this' source path
         = Throw (DuplicateMeta dir).
Proof.
  intros stripExt cwd safeLoad lodashTemplate files.
  induction files as [|[source0 path0] files IH]; intros this this' dir Hdir Hall.
  - cbn [registerAll] in Hall. injection Hall as <-. split; [reflexivity|].
    intros source path Hpath Hext <-.
    unfold register, statics.validateTruthyString.
    now rewrite (isEmpty_false path Hpath), bind_Ok, Hext, Hdir.
  - cbn [registerAll fst snd] in Hall.
    apply bind_Ok_inv in Hall as (this1 & Hcall & Hall).
    pose proof (register_keeps_truthy_meta _ _ _ _ _ _ _ _ _ Hdir Hcall) as Hkept.
    rewrite <- Hkept in Hdir |- *.
    exact (IH this1 this' dir Hdir Hall).
Qed.

Lemma register_keeps_first_meta_witness :
  register sample.stripExt sample.cwd sample.safeLoad sample.lodashTemplate
           {| templates := [(str "a/page", sample.text (str "hello"))];
              meta := <[str "a" := VObj ∅]> ∅; rename := None |}
           (str "y: 2") (str "a/more.json")
  = Throw (DuplicateMeta (str "a")).
Proof.
  refine (proj2 (register_keeps_first_meta sample.stripExt sample.cwd
                   sample.safeLoad sample.lodashTemplate
                   [(str "hello", str "a/page.html")]
                   sample.registeredSite _ (str "a") _ _)
                (str "y: 2") (str "a/more.json") _ _ _).
  - reflexivity.
  - vm_compute. reflexivity.
  - discriminate.
  - vm_compute. reflexivity.
  - vm_compute. reflexivity.
Defined.

(** X7. Registering a metadata file for a directory that has no truthy
    entry yet parses it and files the result under the directory of the
    relative path: [metaAtPath] then returns the parsed content for the
    directory's trailing-slash form and for every file path with that
    directory, the entries of other directories and the templates stay as
    they were; when the parser throws, the call throws the same error and
    nothing is stored. *)
Theorem register_meta_then_metaAtPath :
  forall (stripExt : jsstring -> jsstring) (cwd : jsstring)
         (safeLoad : jsstring -> result value)
         (lodashTemplate : jsstring -> Statil -> result template)
         (this : Statil) (source path : jsstring),
    path <> [] ->
    jsEqb (pt.ext (pt.relative cwd cwd path)) (str ".yaml")
    || jsEqb (pt.ext (pt.relative cwd cwd path)) (str ".json") = true ->
    truthy (getProp (meta this) (pt.dirname (pt.relative cwd cwd path))) = false ->
    (forall parsed,
        safeLoad source = Ok parsed ->
        exists this',
          register stripExt cwd safeLoad lodashTemplate this source path = Ok this'
          /\ metaAtPath this' (pt.dirname (pt.relative cwd cwd path) ++ str "/")
             = parsed
          /\ (forall q,
                pt.lastIsSlash q = false ->
                pt.dirname q = pt.dirname (pt.relative cwd cwd path) ->
                metaAtPath this' q = parsed)
          /\ (forall k,
                k <> pt.dirname (pt.relative cwd cwd path) ->
                getProp (meta this') k = getProp (meta this) k)
          /\ templates this' = templates this)
    /\ (forall e,
          safeLoad source = Throw e ->
          register stripExt cwd safeLoad lodashTemplate this source path = Throw e).
Proof.
  intros stripExt cwd safeLoad lodashTemplate this source path Hpath Hext Hfree.
  split.
  - intros parsed Hp. eexists. split.
    + unfold register, statics.validateTruthyString.
      rewrite (isEmpty_false path Hpath), bind_Ok, Hext, Hfree, Hp. reflexivity.
    + split; [|split; [|split; [|reflexivity]]].
      * rewrite metaAtPath_directory_form. cbn [meta]. apply getProp_insert_eq.
      * intros q Hq Hdir. unfold metaAtPath. rewrite Hq, Hdir. cbn [meta].
        apply getProp_insert_eq.
      * intros k Hk. cbn [meta]. apply getProp_insert_ne. congruence.
  - intros e He. unfold register, statics.validateTruthyString.
    rewrite (isEmpty_false path Hpath), bind_Ok, Hext, Hfree, He. reflexivity.
Qed.

Lemma register_meta_then_metaAtPath_witness :
  exists this',
    register sample.stripExt sample.cwd sample.safeLoad sample.lodashTemplate
             sample.site (str "title: x") (str "a/meta.yaml") = Ok this'
    /\ metaAtPath this' (str "a/page") = VObj ∅.
Proof.
  destruct (proj1 (register_meta_then_metaAtPath sample.stripExt sample.cwd
              sample.safeLoad sample.lodashTemplate sample.site (str "title: x")
              (str "a/meta.yaml") ltac:(discriminate) eq_refl eq_refl)
              (VObj ∅) eq_refl)
    as (this' & Hreg & _ & Hfile & _).
  exists this'. split; [exact Hreg|].
  apply Hfile; vm_compute; reflexivity.
Defined.

(** ** register: absolute paths under the working directory *)

Lemma resolve_under_cwd (cwd p : jsstring) :
  pt.isAbsolute cwd = true -> p <> [] -> pt.isAbsolute p = false ->
  pt.resolve cwd (cwd ++ str "/" ++ p) = pt.resolve cwd p.
Proof.
  intros Hcwd Hp Hrel. unfold pt.resolve.
  assert (Habs : pt.isAbsolute (cwd ++ str "/" ++ p) = true) by now destruct cwd.
  assert (Hne : isEmpty (cwd ++ str "/" ++ p) = false) by now destruct cwd.
  rewrite Hne, Habs, (isEmpty_false p Hp), Hrel, Hcwd.
  change (str "/") with [slash]. now rewrite <- !app_assoc.
Qed.

(** X8. With an absolute working directory, [register] strips it from an
    absolute path: registering a source under [cwd/p] does what registering
    it under the relative path [p] does. *)
Theorem register_strips_cwd :
  forall (stripExt : jsstring -> jsstring) (cwd : jsstring)
         (safeLoad : jsstring -> result value)
         (lodashTemplate : jsstring -> Statil -> result template)
         (this : Statil) (source p : jsstring),
    pt.isAbsolute cwd = true -> p <> [] -> pt.isAbsolute p = false ->
    register stripExt cwd safeLoad lodashTemplate this source (cwd ++ str "/" ++ p)
    = register stripExt cwd safeLoad lodashTemplate this source p.
Proof.
  intros stripExt cwd safeLoad lodashTemplate this source p Hcwd Hp Hrel.
  assert (Hrelative : pt.relative cwd cwd (cwd ++ str "/" ++ p)
                      = pt.relative cwd cwd p).
  { unfold pt.relative. now rewrite (resolve_under_cwd cwd p Hcwd Hp Hrel). }
  unfold register, statics.validateTruthyString.
  rewrite (isEmpty_false p Hp).
  assert (Hne : isEmpty (cwd ++ str "/" ++ p) = false) by now destruct cwd.
  rewrite Hne, !bind_Ok, Hrelative. reflexivity.
Qed.

Lemma register_strips_cwd_witness :
  register sample.stripExt sample.cwd sample.safeLoad sample.lodashTemplate
           sample.site (str "hello") (sample.cwd ++ str "/" ++ str "a/page.html")
  = register sample.stripExt sample.cwd sample.safeLoad sample.lodashTemplate
             sample.site (str "hello") (str "a/page.html").
Proof.
  apply register_strips_cwd; [reflexivity|discriminate|reflexivity].
Defined.

(** ** fileLegend *)

Lemma matchesName_object (name : jsstring) (v : value) :
  matchesName name v = true ->
  exists l, v = VObj l /\ l !! str "name" = Some (VStr name).
Proof.
  unfold matchesName, getField, getProp. destruct v; try discriminate.
  intros Hm. eexists. split; [reflexivity|].
  destruct (o !! str "name") as [[| | | |s| | |]|]; cbn in Hm; try discriminate Hm.
  apply jsEqb_true in Hm. now subst.
Qed.

(** The candidates that [_.find] goes through. *)
Lemma findByName_candidates (files : value) (name : jsstring) :
  exists candidates : list value,
    findByName files name
    = default VUndefined (List.find (matchesName name) candidates)
    /\ match files with
       | VArr xs => candidates = xs
       | VObj o => candidates = ownValues o
       | _ => candidates = []
       end.
Proof.
  destruct files; try (exists []; split; reflexivity).
  - exists xs. split; reflexivity.
  - exists (ownValues o). split; reflexivity.
Qed.

(** Sorting the array indices keeps the keys. *)
Lemma insertIndex_In (x y : N * jsstring) (l : list (N * jsstring)) :
  In y (insertIndex x l) <-> y = x \/ In y l.
Proof.
  induction l as [|z l IH]; cbn [insertIndex].
  - cbn. intuition.
  - destruct (fst x <=? fst z); cbn [In]; [intuition|].
    rewrite IH. intuition.
Qed.

Lemma sortIndices_In (y : N * jsstring) (l : list (N * jsstring)) :
  In y (sortIndices l) <-> In y l.
Proof.
  induction l as [|x l IH]; [reflexivity|].
  cbn [sortIndices fold_right]. fold (sortIndices l).
  rewrite insertIndex_In, IH. cbn. intuition.
Qed.

Lemma enumerationOrder_In (k : jsstring) (keys : list jsstring) :
  In k (enumerationOrder keys) <-> In k keys.
Proof.
  unfold enumerationOrder. rewrite in_app_iff, in_map_iff, filter_In.
  split.
  - intros [((i & k') & <- & Hin)|[Hin _]]; [|exact Hin].
    apply sortIndices_In, in_flat_map in Hin as (k0 & Hk0 & Hin).
    destruct (arrayIndex k0); [|destruct Hin].
    destruct Hin as [[= _ <-]|[]]. exact Hk0.
  - intros Hin. destruct (arrayIndex k) as [i|] eqn:E; [left|right; now split].
    exists (i, k). split; [reflexivity|].
    apply sortIndices_In, in_flat_map. exists k. split; [exact Hin|].
    rewrite E. now left.
Qed.


Lemma findByName_shape (files : value) (name : jsstring) :
  findByName files name = VUndefined
  \/ exists l, findByName files name = VObj l
               /\ l !! str "name" = Some (VStr name).
Proof.
  destruct (findByName_candidates files name) as (cs & -> & _).
  destruct (List.find (matchesName name) cs) as [v|] eqn:E; [|now left].
  cbv [default from_option id]. apply find_some in E as [_ Hm].
  destruct (matchesName_object name v Hm) as (l & -> & Hl). right. eauto.
Qed.

(** What [fileLegend] returns when it returns something. *)
Lemma fileLegend_result (this : Statil) (path : jsstring) :
  fileLegend this path = VUndefined
  \/ exists l : obj,
       fileLegend this path = VObj l
       /\ l !! str "name" = Some (VStr (pt.basename path)).
Proof.
  unfold fileLegend. destruct (truthy (metaAtPath this path)); [|now left].
  destruct (findByName_shape (getField (metaAtPath this path) (str "files"))
              (pt.basename path)) as [H|(l & H & Hl)]; [now left|].
  right. now exists l.
Qed.



(** The legend of a file in a mapping. *)
Example fileLegend_mappingSite :
  fileLegend sample.mappingSite (str "t")
  = VObj (<[str "name" := VStr (str "t")]> ∅).
Proof. vm_compute. reflexivity. Qed.

Lemma fileLegend_shape (this : Statil) (path : jsstring) :
  fileLegend this path = VUndefined \/ exists l, fileLegend this path = VObj l.
Proof.
  destruct (fileLegend_result this path)
    as [H|(l & H & _)]; [now left|right; eauto].
Qed.

(** ** locals, field by field *)

(** What [locals] returns: the legend's own fields over the context with
    its defaults. *)
Lemma locals_result (this : Statil) (path : jsstring) (d : obj) :
  locals this path (VObj d)
  = Ok (ownProps (fileLegend this path)
        ∪ (let d1 := if isString (getProp d (str "$content")) then d
                     else <[str "$content" := VStr []]> d in
           let d2 := if isString (getProp d1 (str "$title")) then d1
                     else <[str "$title" := VStr []]> d1 in
           let d3 := <[str "$" := VSelf]> d2 in
           if truthy (metaAtPath this path)
           then <[str "$meta" := metaAtPath this path]> d3 else d3)).
Proof.
  unfold locals. cbn [statics.validateWritable bind]. cbv zeta. f_equal.
  destruct (fileLegend_shape this path) as [->|[l ->]]; cbn [truthy ownProps assign].
  - now rewrite (left_id_L ∅ (∪)).
  - reflexivity.
Qed.

Lemma locals_defaulted_lookup (d : obj) (k key : jsstring) :
  (if isString (getProp d key) then d else <[key := VStr []]> d) !! k
  = if decide (k = key)
    then (if isString (getProp d key) then d !! k else Some (VStr []))
    else d !! k.
Proof.
  destruct (decide (k = key)) as [->|Hne].
  - destruct (isString (getProp d key)); [reflexivity|apply lookup_insert_eq].
  - destruct (isString (getProp d key)); [reflexivity|].
    now rewrite lookup_insert_ne by congruence.
Qed.

(** The fields of the result of [locals]. *)
Lemma locals_lookup (this : Statil) (path : jsstring) (d ctx : obj)
    (k : jsstring) :
  locals this path (VObj d) = Ok ctx ->
  ctx !! k =
    match ownProps (fileLegend this path) !! k with
    | Some v => Some v
    | None =>
        if decide (k = str "$meta")
        then (if truthy (metaAtPath this path)
              then Some (metaAtPath this path) else d !! k)
        else if decide (k = str "$") then Some VSelf
        else if decide (k = str "$title")
        then (if isString (getProp d k) then d !! k else Some (VStr []))
        else if decide (k = str "$content")
        then (if isString (getProp d k) then d !! k else Some (VStr []))
        else d !! k
    end.
Proof.
  rewrite locals_result. intros [= <-]. rewrite lookup_union.
  destruct (ownProps (fileLegend this path) !! k) as [v|] eqn:H.
  - now rewrite (union_Some_l _ _).
  - rewrite (left_id_L None union). cbv zeta.
    assert (Hd3 : forall m : obj,
      (if truthy (metaAtPath this path)
       then <[str "$meta" := metaAtPath this path]> m else m) !! k
      = if decide (k = str "$meta")
        then (if truthy (metaAtPath this path)
              then Some (metaAtPath this path) else m !! k)
        else m !! k).
    { intros m. destruct (decide (k = str "$meta")) as [->|Hne];
        destruct (truthy (metaAtPath this path)); try reflexivity.
      - apply lookup_insert_eq.
      - now rewrite lookup_insert_ne by congruence. }
    rewrite Hd3. clear Hd3.
    destruct (decide (k = str "$meta")) as [->|Hmeta].
    + destruct (truthy (metaAtPath this path)); [reflexivity|].
      rewrite lookup_insert_ne by key_neq.
      rewrite locals_defaulted_lookup.
      destruct (decide (str "$meta" = str "$title")) as [E|_];
        [exfalso; revert E; key_neq|].
      rewrite locals_defaulted_lookup.
      destruct (decide (str "$meta" = str "$content")) as [E|_];
        [exfalso; revert E; key_neq|reflexivity].
    + destruct (decide (k = str "$")) as [->|Hself];
        [apply lookup_insert_eq|].
      rewrite lookup_insert_ne by congruence.
      rewrite locals_defaulted_lookup.
      destruct (decide (k = str "$title")) as [->|Htitle].
      * assert (E : getProp
          (if isString (getProp d (str "$content")) then d
           else <[str "$content" := VStr []]> d) (str "$title")
          = getProp d (str "$title")).
        { unfold getProp at 1 3. rewrite locals_defaulted_lookup.
          destruct (decide (str "$title" = str "$content")) as [E|_];
            [exfalso; revert E; key_neq|reflexivity]. }
        rewrite E. rewrite locals_defaulted_lookup.
        destruct (decide (str "$title" = str "$content")) as [E'|_];
          [exfalso; revert E'; key_neq|reflexivity].
      * rewrite locals_defaulted_lookup.
        destruct (decide (k = str "$content")) as [->|Hcontent]; reflexivity.
Qed.

(** X10. [locals] never fails on an object, and its result is read field
    by field: a field of the file's legend wins; otherwise [$] is the
    context itself, [$meta] the directory's metadata when there is one,
    [$content] and [$title] the caller's when they are strings and the empty
    string when not, and every other field is the caller's, absent ones
    staying absent. *)
Theorem locals_field_by_field :
  forall (this : Statil) (path : jsstring) (d : obj),
  exists ctx : obj,
    locals this path (VObj d) = Ok ctx
    /\ (forall k v, ownProps (fileLegend this path) !! k = Some v ->
          ctx !! k = Some v)
    /\ (forall k, ownProps (fileLegend this path) !! k = None ->
          ctx !! k =
            if decide (k = str "$meta")
            then (if truthy (metaAtPath this path)
                  then Some (metaAtPath this path) else d !! k)
            else if decide (k = str "$") then Some VSelf
            else if decide (k = str "$title")
            then (if isString (getProp d k) then d !! k else Some (VStr []))
            else if decide (k = str "$content")
            then (if isString (getProp d k) then d !! k else Some (VStr []))
            else d !! k).
Proof.
  intros this path d. eexists. split; [apply locals_result|]. split.
  - intros k v H. rewrite (locals_lookup this path d _ k (locals_result _ _ _)).
    now rewrite H.
  - intros k H. rewrite (locals_lookup this path d _ k (locals_result _ _ _)).
    now rewrite H.
Qed.

Lemma locals_field_by_field_witness :
  exists ctx : obj,
    locals sample.echoSite (str "t")
           (VObj (<[str "name" := VStr (str "other")]> ∅)) = Ok ctx
    /\ ctx !! str "echo" = Some (VStr (str "groupX"))
    /\ ctx !! str "$title" = Some (VStr []).
Proof.
  destruct (locals_field_by_field sample.echoSite (str "t")
              (<[str "name" := VStr (str "other")]> ∅))
    as (ctx & Hctx & Hlegend & Hrest).
  exists ctx. split; [exact Hctx|]. split.
  - apply Hlegend. vm_compute. reflexivity.
  - rewrite (Hrest (str "$title")); [reflexivity|]. vm_compute. reflexivity.
Defined.

(** X11. [locals] is idempotent: applied to its own result, for the same
    path, it returns that result unchanged. *)
Theorem locals_idempotent :
  forall (this : Statil) (path : jsstring) (d : obj),
  exists ctx : obj,
    locals this path (VObj d) = Ok ctx
    /\ locals this path (VObj ctx) = Ok ctx.
Proof.
  intros this path d. eexists. split; [apply locals_result|].
  set (ctx := _ ∪ _).
  assert (Hctx : locals this path (VObj d) = Ok ctx) by apply locals_result.
  rewrite (locals_result this path ctx). f_equal. apply map_eq. intros k.
  rewrite (locals_lookup this path ctx _ k (locals_result _ _ _)).
  pose proof (locals_lookup this path d ctx k Hctx) as Hk.
  destruct (ownProps (fileLegend this path) !! k) as [v|]; [now rewrite Hk|].
  destruct (decide (k = str "$meta")).
  { destruct (truthy (metaAtPath this path)); [now rewrite Hk|reflexivity]. }
  destruct (decide (k = str "$")); [now rewrite Hk|].
  destruct (decide (k = str "$title")).
  { unfold getProp at 1. rewrite Hk.
    destruct (isString (getProp d k)) eqn:Hd; [|reflexivity].
    unfold getProp in Hd. now rewrite Hd. }
  destruct (decide (k = str "$content")); [|reflexivity].
  unfold getProp at 1. rewrite Hk.
  destruct (isString (getProp d k)) eqn:Hd; [|reflexivity].
  unfold getProp in Hd. now rewrite Hd.
Qed.

(** X12. A template whose file has a legend is run with the legend's
    fields in its context, so its [name] there is the file's own basename
    whatever the caller passed for [name]. *)
Theorem renderOne_name_is_basename :
  forall (stripExt : jsstring -> jsstring) (this : Statil)
         (path : jsstring) (d : obj) (t : template) (legend : obj),
    path <> [] ->
    lookupKey (stripExt path) (templates this) = Some t ->
    fileLegend this path = VObj legend ->
    exists ctx : obj,
      renderOne stripExt this path (VObj d) = t ctx
      /\ ctx !! str "name" = Some (VStr (pt.basename path))
      /\ forall k v, legend !! k = Some v -> ctx !! k = Some v.
Proof.
  intros stripExt this path d t legend Hpath Ht Hl.
  destruct (locals this path (VObj d)) as [ctx|e] eqn:Hctx;
    [|now rewrite locals_result in Hctx].
  assert (Hleg : forall k v, legend !! k = Some v -> ctx !! k = Some v).
  { intros k v Hk. rewrite (locals_lookup this path d ctx k Hctx), Hl.
    cbn [ownProps]. now rewrite Hk. }
  exists ctx. split; [|split].
  - unfold renderOne, statics.validateTruthyString.
    destruct path as [|c path'] eqn:Ep; [congruence|]. cbn [isEmpty bind].
    rewrite <- Ep in *. rewrite Ht.
    cbn [orNewHash isObject default from_option id]. now rewrite Hctx.
  - apply Hleg.
    destruct (fileLegend_result this path)
      as [H|(l & H & Hname)]; [congruence|].
    rewrite Hl in H. now injection H as ->.
  - exact Hleg.
Qed.

Lemma renderOne_name_is_basename_witness :
  exists ctx : obj,
    renderOne sample.stripExt sample.echoSite (str "t")
      (VObj (<[str "name" := VStr (str "other")]> ∅)) = sample.printPath ctx
    /\ ctx !! str "name" = Some (VStr (pt.basename (str "t")))
    /\ forall k v,
         (<[str "name" := VStr (str "t")]>
            (<[str "echo" := VStr (str "groupX")]> (∅ : obj))) !! k = Some v ->
         ctx !! k = Some v.
Proof.
  apply (renderOne_name_is_basename sample.stripExt sample.echoSite (str "t")).
  - discriminate.
  - reflexivity.
  - vm_compute. reflexivity.
Defined.


Lemma forInKeys_In {A} (k : jsstring) (l : list (jsstring * A)) :
  In k (forInKeys l) <-> In k (List.map fst l).
Proof. apply enumerationOrder_In. Qed.

(** X13. What a successful [render] returns holds nothing of its own: every
    entry of the output is an entry of what [renderTemplate] returned for
    some registered path that is not ignored. Conversely every key such a
    rendering produced is in the output, and where several renderings
    produced the same key, the one of the path that [for ... in] visits
    last is kept. *)
Theorem render_output_comes_from_templates :
  forall (split : jsstring -> list jsstring) (stripExt : jsstring -> jsstring)
         (regexpTest : jsstring -> jsstring -> result bool)
         (this : Statil) (data : value) (out : obj),
    render split stripExt regexpTest this data = Ok out ->
    (forall k v, out !! k = Some v ->
       exists path rendered,
         In path (List.map fst (templates this))
         /\ isIgnored regexpTest this path = Ok false
         /\ renderTemplate split stripExt this path data = Ok rendered
         /\ rendered !! k = Some v)
    /\ (forall path rendered k,
          In path (List.map fst (templates this)) ->
          isIgnored regexpTest this path = Ok false ->
          renderTemplate split stripExt this path data = Ok rendered ->
          is_Some (rendered !! k) -> is_Some (out !! k))
    /\ (forall earlier path rendered k v,
          forInKeys (templates this) = earlier ++ [path] ->
          isIgnored regexpTest this path = Ok false ->
          renderTemplate split stripExt this path data = Ok rendered ->
          rendered !! k = Some v -> out !! k = Some v).
Proof.
  intros split stripExt regexpTest this data out Hr. unfold render in Hr.
  split; [|split].
  - intros k v Hk.
    destruct (renderPaths_sources _ _ _ _ _ _ _ _ Hr k v Hk)
      as [H|(path & rendered & Hin & H)];
      [now rewrite lookup_empty in H|].
    exists path, rendered. split; [now apply forInKeys_In|exact H].
  - intros path rendered k Hin.
    apply (renderPaths_covers _ _ _ _ _ _ _ _ Hr). now apply forInKeys_In.
  - intros earlier path rendered k v Hkeys Hi Hone Hk. rewrite Hkeys in Hr.
    exact (renderPaths_last _ _ _ _ _ _ _ _ _ _ Hr Hi Hone k v Hk).
Qed.

Lemma render_output_comes_from_templates_witness :
  exists path rendered,
    In path (List.map fst (templates sample.siteWithPartial))
    /\ isIgnored sample.regexpTest sample.siteWithPartial path = Ok false
    /\ renderTemplate sample.split sample.stripExt sample.siteWithPartial
         path VUndefined = Ok rendered
    /\ rendered !! str "page" = Some (VStr (str "page")).
Proof.
  refine (proj1 (render_output_comes_from_templates sample.split
                   sample.stripExt sample.regexpTest sample.siteWithPartial
                   VUndefined (<[str "page" := VStr (str "page")]> ∅) _)
                (str "page") (VStr (str "page")) _).
  - vm_compute. reflexivity.
  - vm_compute. reflexivity.
Defined.

(** X14. [render] stops at the first path, in the order of [for ... in],
    that fails: when the paths visited before it are ignored or rendered,
    and testing it against the [ignore] pattern or rendering it throws,
    [render] throws that error and returns no output, whatever the later
    paths would give. When no registered path fails, [render] returns. *)
Theorem render_throws_first_error :
  forall (split : jsstring -> list jsstring) (stripExt : jsstring -> jsstring)
         (regexpTest : jsstring -> jsstring -> result bool)
         (this : Statil) (data : value),
    let passes := fun p =>
      isIgnored regexpTest this p = Ok true
      \/ (isIgnored regexpTest this p = Ok false
          /\ exists rendered,
               renderTemplate split stripExt this p data = Ok rendered) in
    (forall before path after e,
        forInKeys (templates this) = before ++ path :: after ->
        (forall p, In p before -> passes p) ->
        isIgnored regexpTest this path = Throw e
        \/ (isIgnored regexpTest this path = Ok false
            /\ renderTemplate split stripExt this path data = Throw e) ->
        render split stripExt regexpTest this data = Throw e)
    /\ ((forall p, In p (List.map fst (templates this)) -> passes p) ->
        exists out, render split stripExt regexpTest this data = Ok out).
Proof.
  intros split stripExt regexpTest this data passes. split.
  - intros before path after e Hkeys Hbefore Hfail.
    unfold render. rewrite Hkeys, renderPaths_app.
    destruct (renderPaths_all_pass split stripExt regexpTest this data
                before ∅ Hbefore) as [b ->].
    cbn [bind]. rewrite renderPaths_cons.
    now rewrite (renderStep_Throw split stripExt regexpTest this data b path e).
  - intros Hall. apply renderPaths_all_pass.
    intros p Hp. apply Hall. now apply forInKeys_In.
Qed.

(** The template registered second, under the name "404", is visited
    first: its error is the one that [render] throws. *)
Lemma render_throws_first_error_witness :
  render sample.split sample.stripExt sample.regexpTest sample.orderSite
         VUndefined = Throw (HostError 404).
Proof.
  refine (proj1 (render_throws_first_error sample.split sample.stripExt
                   sample.regexpTest sample.orderSite VUndefined)
                [] (str "404") [str "b"] (HostError 404) _ _ _).
  - vm_compute. reflexivity.
  - intros p [].
  - right. split; vm_compute; reflexivity.
Defined.

(** ** The path a template is rendered under *)

Lemma joinWith_splitOn (s : jsstring) : joinWith [slash] (splitOn slash s) = s.
Proof.
  induction s as [|c s IH]; [reflexivity|].
  pose proof (splitOn_not_nil slash s) as Hne.
  cbn [splitOn]. destruct (N.eqb_spec c slash) as [->|Hc].
  - destruct (splitOn slash s) as [|p ps]; [contradiction|].
    change (joinWith [slash] ([] :: p :: ps))
      with ([] ++ [slash] ++ joinWith [slash] (p :: ps)).
    now rewrite IH.
  - destruct (splitOn slash s) as [|p ps]; [contradiction|].
    rewrite <- IH. destruct ps; reflexivity.
Qed.

Lemma basenameBounds_component (pre f : jsstring) (k e : nat) :
  ~ In slash f -> (k <= length f)%nat ->
  pre = [] \/ (exists pre', pre = pre' ++ [slash]) ->
  pt.basenameBounds (pre ++ f) (length pre + k) false (Some e)
  = (length pre, Some e).
Proof.
  intros Hns Hk Hpre. induction k as [|k IH].
  - rewrite Nat.add_0_r. destruct Hpre as [->|[pre' ->]]; [reflexivity|].
    rewrite length_app, Nat.add_1_r. cbn [pt.basenameBounds length].
    assert (Hc : charCodeAt ((pre' ++ [slash]) ++ f) (length pre') = Some slash).
    { unfold charCodeAt. rewrite <- app_assoc.
      rewrite nth_error_app2 by lia. now rewrite Nat.sub_diag. }
    now rewrite (bool_decide_eq_true_2 _ Hc).
  - replace (length pre + S k)%nat with (S (length pre + k)) by lia.
    cbn [pt.basenameBounds].
    assert (Hc : charCodeAt (pre ++ f) (length pre + k) <> Some slash).
    { unfold charCodeAt. rewrite nth_error_app2 by lia.
      replace (length pre + k - length pre)%nat with k by lia.
      intros Hn. apply Hns. eapply nth_error_In. exact Hn. }
    rewrite (bool_decide_eq_false_2 _ Hc). apply IH. lia.
Qed.

Lemma basename_component (pre f : jsstring) :
  f <> [] -> ~ In slash f ->
  pre = [] \/ (exists pre', pre = pre' ++ [slash]) ->
  pt.basename (pre ++ f) = f.
Proof.
  intros Hf Hns Hpre. unfold pt.basename.
  destruct (exists_last Hf) as (f' & c & Ef).
  assert (Hlen : length (pre ++ f) = S (length pre + length f')).
  { rewrite Ef, !length_app. cbn. lia. }
  rewrite Hlen. cbn [pt.basenameBounds].
  assert (Hc : charCodeAt (pre ++ f) (length pre + length f') <> Some slash).
  { unfold charCodeAt. rewrite nth_error_app2 by lia.
    replace (length pre + length f' - length pre)%nat with (length f') by lia.
    intros Hn. apply Hns. eapply nth_error_In. exact Hn. }
  rewrite (bool_decide_eq_false_2 _ Hc).
  rewrite basenameBounds_component; try assumption.
  2:{ rewrite Ef, length_app. lia. }
  unfold slice. rewrite drop_app_length.
  apply firstn_all2. rewrite Ef, !length_app. cbn. lia.
Qed.

Lemma dirnameEnd_no_slash (f : jsstring) (i : nat) (b : bool) :
  ~ In slash f -> pt.dirnameEnd f i b = None.
Proof.
  intros Hns. revert b. induction i as [|i IH]; intros b; [reflexivity|].
  cbn [pt.dirnameEnd].
  assert (Hc : charCodeAt f (S i) <> Some slash).
  { intros Hn. apply Hns. eapply nth_error_In. exact Hn. }
  rewrite (bool_decide_eq_false_2 _ Hc). apply IH.
Qed.

Lemma dirname_no_slash (f : jsstring) :
  f <> [] -> ~ In slash f -> pt.dirname f = str ".".
Proof.
  intros Hf Hns. unfold pt.dirname. rewrite (isEmpty_false f Hf).
  rewrite dirnameEnd_no_slash by assumption.
  destruct f as [|c f]; [contradiction|]. cbn [pt.isAbsolute].
  destruct (N.eqb_spec c slash) as [->|]; [|reflexivity].
  exfalso. apply Hns. now left.
Qed.

Lemma normalizeArray_plain (parts : list jsstring) (allow : bool) :
  forallb isPlainName parts = true -> pt.normalizeArray parts allow = parts.
Proof.
  unfold pt.normalizeArray.
  assert (H : forall res, forallb isPlainName parts = true ->
                fold_left (pt.normalizeStep allow) parts res = res ++ parts).
  { induction parts as [|p parts IH]; intros res Hp.
    - now rewrite app_nil_r.
    - cbn [forallb] in Hp. apply andb_true_iff in Hp as [Hp Hparts].
      cbn [fold_left]. rewrite normalizeStep_plain by assumption.
      rewrite IH by assumption. now rewrite <- app_assoc. }
  apply H.
Qed.

Lemma plain_parts_good (parts : list jsstring) :
  forallb isPlainName parts = true -> Forall goodPart parts.
Proof.
  induction parts as [|p parts IH]; [constructor|].
  cbn [forallb]. intros [Hp Hparts]%andb_true_iff.
  constructor; [|now apply IH].
  destruct (isPlainName_spec p Hp) as (H1 & H2 & _). now split.
Qed.

(** Joining the directory and the name of a normal relative path gives
    the path back. *)
Lemma join_dirname_basename (path : jsstring) :
  isPlainPath path = true ->
  pt.join (pt.dirname path) (VStr (pt.basename path)) = Ok path.
Proof.
  unfold isPlainPath. intros Hplain.
  pose proof (joinWith_splitOn path) as Hpath.
  destruct (exists_last (splitOn_not_nil slash path)) as (dirs & f & Eparts).
  rewrite Eparts in Hplain, Hpath.
  rewrite forallb_app in Hplain. apply andb_true_iff in Hplain as [Hdirs Hf].
  cbn [forallb] in Hf. rewrite andb_true_r in Hf.
  destruct (isPlainName_spec f Hf) as (Hfne & Hfns & _).
  rewrite joinWith_snoc in Hpath. unfold pt.join. f_equal.
  destruct dirs as [|d dirs].
  - subst path.
    pose proof (basename_component [] f Hfne Hfns (or_introl eq_refl)) as Hb.
    cbn [app] in Hb. rewrite Hb.
    rewrite dirname_no_slash by assumption.
    now rewrite joinStrings_plain by assumption.
  - set (dir := joinWith [slash] (d :: dirs)) in *.
    pose proof (plain_parts_good _ Hdirs) as Hgood.
    assert (Hdne : dir <> []).
    { subst dir. inversion Hgood as [|? ? [Hd _] _]; subst.
      destruct d; [contradiction|]. destruct dirs; discriminate. }
    assert (Hhead : head dir <> Some slash) by now apply joinWith_head.
    assert (Hroot : dir <> str "/") by (intros E; now rewrite E in Hhead).
    subst path.
    rewrite dirname_component by assumption.
    replace (dir ++ [slash] ++ f) with ((dir ++ [slash]) ++ f)
      by now rewrite <- app_assoc.
    rewrite basename_component by eauto.
    rewrite joinStrings_plain by assumption.
    rewrite (isEmpty_false dir Hdne). unfold dirPrefix.
    assert (Habs : pt.isAbsolute dir = false).
    { destruct dir as [|c dir']; [reflexivity|]. cbn [pt.isAbsolute].
      destruct (N.eqb_spec c slash) as [->|]; [|reflexivity].
      now exfalso. }
    rewrite Habs. cbn [negb app].
    unfold dir at 1. rewrite splitOn_joinWith by (discriminate || assumption).
    rewrite normalizeArray_plain by assumption. reflexivity.
Qed.

(** X15. A template without an [echo] option, registered under a normal
    relative path, gives exactly one entry: the result of rendering it
    through its ancestors, with [$path] set to its path and [name] to its
    basename, stored under its own path, or under what [rename] makes of
    that path when [rename] returns a non-empty string. An error of that
    rendering is the error of [renderTemplate]. *)
Theorem renderTemplate_keyed_by_path :
  forall (split : jsstring -> list jsstring) (stripExt : jsstring -> jsstring)
         (this : Statil) (path : jsstring) (data : value),
    isPlainPath path = true ->
    truthy (fileLegend this path) = false
    \/ truthy (getField (fileLegend this path) (str "echo")) = false ->
    renderTemplate split stripExt this path data
    = (r <- renderThrough split stripExt this path
              (VObj (<[str "$path" := VStr path]>
                      (<[str "name" := VStr (pt.basename path)]>
                        (assign (statics.Hash data) (fileLegend this path)))));;
       Ok (<[renamed this path := fst r]> ∅)).
Proof.
  intros split stripExt this path data Hplain Hecho.
  unfold renderTemplate, echoDatas.
  assert (Hno : truthy (fileLegend this path)
                && truthy (getField (fileLegend this path) (str "echo")) = false).
  { destruct Hecho as [->| ->]; [reflexivity|apply andb_false_r]. }
  rewrite Hno. cbn [bind fold_left]. unfold renderEcho, withEchoPath.
  rewrite getProp_insert_eq, join_dirname_basename by assumption.
  reflexivity.
Qed.

Lemma renderTemplate_keyed_by_path_witness :
  renderTemplate sample.split sample.stripExt sample.site (str "a/b") VUndefined
  = (r <- renderThrough sample.split sample.stripExt sample.site (str "a/b")
            (VObj (<[str "$path" := VStr (str "a/b")]>
                    (<[str "name" := VStr (pt.basename (str "a/b"))]>
                      (assign (statics.Hash VUndefined)
                              (fileLegend sample.site (str "a/b"))))));;
     Ok (<[renamed sample.site (str "a/b") := fst r]> ∅)).
Proof.
  apply renderTemplate_keyed_by_path.
  - reflexivity.
  - left. reflexivity.
Defined.

(** ** renderThrough: what an ancestor receives *)

(** X16. In [renderThrough] each level's output becomes the [$content] of
    the level above: when the level below a registered template printed
    the string [s], that template is run on a context whose [$content] is
    [s] (unless its own legend sets [$content]), and what it prints is the
    output of the level. The top level's output is the result. *)
Theorem renderThrough_passes_output_up :
  forall (split : jsstring -> list jsstring) (stripExt : jsstring -> jsstring)
         (this : Statil) (path : jsstring) (data : value)
         (top below : jsstring) (rest : list jsstring)
         (d1 ctx' : obj) (s : jsstring) (t : template),
    path <> [] -> top <> [] ->
    split path = top :: below :: rest ->
    eachRight stripExt this rest (ownProps (orNewHash data)) = Ok d1 ->
    renderOne stripExt this below (VObj d1) = Ok (VStr s, ctx') ->
    lookupKey (stripExt top) (templates this) = Some t ->
    ownProps (fileLegend this top) !! str "$content" = None ->
    exists ctx : obj,
      ctx !! str "$content" = Some (VStr s)
      /\ renderThrough split stripExt this path data
         = (r <- t ctx;; Ok (fst r, <[str "$content" := fst r]> (snd r))).
Proof.
  intros split stripExt this path data top below rest d1 ctx' s t
         Hpath Htop Hsplit Hrest Hbelow Ht Hlegend.
  set (d2 := <[str "$content" := VStr s]> ctx').
  destruct (locals this top (VObj d2)) as [ctx|e] eqn:Hctx;
    [|now rewrite locals_result in Hctx].
  exists ctx. split.
  - rewrite (locals_lookup this top d2 ctx _ Hctx), Hlegend.
    destruct (decide (str "$content" = str "$meta")) as [E|_];
      [exfalso; revert E; key_neq|].
    destruct (decide (str "$content" = str "$")) as [E|_];
      [exfalso; revert E; key_neq|].
    destruct (decide (str "$content" = str "$title")) as [E|_];
      [exfalso; revert E; key_neq|].
    destruct (decide (str "$content" = str "$content")) as [_|E];
      [|contradiction].
    unfold d2. rewrite getProp_insert_eq. cbn [isString].
    apply lookup_insert_eq.
  - unfold renderThrough, statics.validateTruthyString.
    rewrite (isEmpty_false path Hpath). cbn [bind]. rewrite Hsplit.
    cbn [eachRight fold_right].
    fold (eachRight stripExt this rest (ownProps (orNewHash data))).
    rewrite Hrest. cbn [bind].
    assert (Hlev : renderLevel stripExt this below d1 = Ok d2).
    { unfold renderLevel. now rewrite Hbelow. }
    rewrite Hlev. cbn [bind]. unfold renderLevel, renderOne,
      statics.validateTruthyString.
    rewrite (isEmpty_false top Htop). cbn [bind]. rewrite Ht.
    cbn [orNewHash isObject default from_option id]. rewrite Hctx. cbn [bind].
    destruct (t ctx) as [[out c]|e]; cbn [bind fst snd]; [|reflexivity].
    now rewrite getProp_insert_eq.
Qed.

Lemma renderThrough_passes_output_up_witness :
  exists ctx : obj,
    ctx !! str "$content" = Some (VStr (str "leaf"))
    /\ renderThrough sample.split sample.stripExt sample.site (str "a/b")
                     VUndefined
       = (r <- sample.wrap (str "<") (str ">") ctx;;
          Ok (fst r, <[str "$content" := fst r]> (snd r))).
Proof.
  eapply (renderThrough_passes_output_up sample.split sample.stripExt
            sample.site (str "a/b") VUndefined (str "index") (str "a/index")
            [str "a/b"]).
  - discriminate.
  - discriminate.
  - reflexivity.
  - vm_compute. reflexivity.
  - vm_compute. reflexivity.
  - reflexivity.
  - reflexivity.
Defined.

(** ** When a template compiles *)

(** X17. [compileTemplate] returns a template exactly when the source has
    no delimiter or the engine accepts the code made of its fragments: the
    string literals the compiler writes never keep a source from
    compiling, whatever characters the source holds. When it does not
    return, it throws a syntax error. *)
Theorem compileTemplate_succeeds_iff :
  forall (evalExpression : jsstring -> obj -> jsstring -> result evaluation)
         (hostParses : list instr -> bool)
         (hostRun : list instr -> obj -> jsstring -> result jsstring)
         (source : jsstring) (context : obj),
    ((hasDelimiter source = false \/ hostParses (codeBodyOf source) = true)
     <-> exists compiled,
           compileTemplate evalExpression hostParses hostRun source context
           = Ok compiled)
    /\ (forall e,
          compileTemplate evalExpression hostParses hostRun source context
          = Throw e -> e = SyntaxError).
Proof.
  intros evalExpression hostParses hostRun source context.
  assert (Hc : compiles hostParses (codeBodyOf source)
               = negb (hasDelimiter source) || hostParses (codeBodyOf source)).
  { unfold compiles. rewrite codeBodyOf_all_literal.
    unfold codeBodyOf at 1, reDelimitersMatches.
    now rewrite scan_literals_read. }
  unfold compileTemplate. rewrite Hc. clear Hc. split; [split|].
  - intros [-> | ->]; rewrite ?orb_true_r; cbn [negb orb]; eauto.
  - intros [compiled H].
    destruct (hasDelimiter source); [|now left]. cbn [negb orb] in H.
    destruct (hostParses (codeBodyOf source)); [now right|discriminate H].
  - intros e.
    destruct (negb (hasDelimiter source) || hostParses (codeBodyOf source));
      [intros H; discriminate H|]. now intros [= <-].
Qed.

Lemma compileTemplate_succeeds_iff_witness :
  exists compiled,
    compileTemplate sample.evalExpression (fun _ => true)
                    (fun _ _ _ => Throw (HostError 0))
                    (str "<p>{{ $.name }}</p>") ∅ = Ok compiled.
Proof.
  apply (proj1 (proj1 (compileTemplate_succeeds_iff sample.evalExpression
                         (fun _ => true) (fun _ _ _ => Throw (HostError 0))
                         (str "<p>{{ $.name }}</p>") ∅))).
  right. reflexivity.
Defined.

(** ** The context of a compiled template *)

(** X18. The context given to [compileTemplate] is a default for the one
    given at each call: the template behaves as the one compiled without a
    context and called with the two merged, the fields of the call winning
    over those given at compile time. Called with undefined or null it sees
    the compile-time context alone. *)
Theorem compile_context_is_default :
  forall (evalExpression : jsstring -> obj -> jsstring -> result evaluation)
         (hostParses : list instr -> bool)
         (hostRun : list instr -> obj -> jsstring -> result jsstring)
         (source : jsstring) (context : obj)
         (compiled : value -> result jsstring),
    compileTemplate evalExpression hostParses hostRun source context
    = Ok compiled ->
    exists compiled0,
      compileTemplate evalExpression hostParses hostRun source ∅ = Ok compiled0
      /\ (forall ctx : obj,
            compiled (VObj ctx) = compiled0 (VObj (ctx ∪ context)))
      /\ compiled VUndefined = compiled0 (VObj context)
      /\ compiled VNull = compiled0 (VObj context)
      /\ (forall (ctx : obj) k v,
            ctx !! k = Some v -> (ctx ∪ context) !! k = Some v)
      /\ (forall (ctx : obj) k,
            ctx !! k = None -> (ctx ∪ context) !! k = context !! k).
Proof.
  intros evalExpression hostParses hostRun source context compiled.
  unfold compileTemplate.
  destruct (compiles hostParses (codeBodyOf source)); [|discriminate].
  intros [= <-]. eexists. split; [reflexivity|].
  cbv beta. cbn [assign]. rewrite !(right_id_L ∅ (∪)).
  split; [intros ctx; now rewrite !(right_id_L ∅ (∪))|].
  split; [reflexivity|]. split; [reflexivity|]. split.
  - intros ctx k v H. now rewrite lookup_union, H, (union_Some_l _ _).
  - intros ctx k H. now rewrite lookup_union, H, (left_id_L None union).
Qed.

Lemma compile_context_is_default_witness :
  exists compiled compiled0,
    compileTemplate sample.evalExpression (fun _ => true)
                    (fun _ _ _ => Throw (HostError 0))
                    (str "{{ $.name }}")
                    (<[str "name" := VStr (str "default")]> ∅) = Ok compiled
    /\ compileTemplate sample.evalExpression (fun _ => true)
                       (fun _ _ _ => Throw (HostError 0))
                       (str "{{ $.name }}") ∅ = Ok compiled0
    /\ compiled VUndefined
       = compiled0 (VObj (<[str "name" := VStr (str "default")]> ∅)).
Proof.
  eexists.
  destruct (compile_context_is_default sample.evalExpression (fun _ => true)
              (fun _ _ _ => Throw (HostError 0)) (str "{{ $.name }}")
              (<[str "name" := VStr (str "default")]> ∅) _ eq_refl)
    as (compiled0 & H0 & _ & Hu & _).
  exists compiled0. split; [reflexivity|]. split; [exact H0|exact Hu].
Defined.

(** ** Running a code body *)

Lemma append_from_empty (v : value) (out : jsstring) :
  __append v out = out ++ __append v [].
Proof.
  unfold __append. destruct (isNullish v); [now rewrite app_nil_r|reflexivity].
Qed.

(** X19. A code body without statement fragments, whose expression
    fragments neither read nor write the output, only appends to the
    output: run with some output already written, it returns that output
    followed by what it returns when run from the empty output, and it
    throws what that run throws. A fragment that assigns [__out] is not
    of this kind, and a body that holds one does not only append. *)
Theorem run_only_appends :
  forall (evalExpression : jsstring -> obj -> jsstring -> result evaluation)
         (hostRun : list instr -> obj -> jsstring -> result jsstring)
         (codeBody : list instr) (ctx : obj) (out : jsstring),
    forallb (fun i => negb (isStatement i)) codeBody = true ->
    (forall e, In (AppendExpression e) codeBody ->
               leavesOutput evalExpression e) ->
    run evalExpression hostRun codeBody ctx out
    = (r <- run evalExpression hostRun codeBody ctx [];; Ok (out ++ r)).
Proof.
  intros evalExpression hostRun codeBody.
  induction codeBody as [|i rest IH]; intros ctx out Hfree Hleaves.
  - cbn [run bind]. now rewrite app_nil_r.
  - cbn [forallb] in Hfree. apply andb_true_iff in Hfree as [Hi Hrest].
    assert (Hleaves' : forall e, In (AppendExpression e) rest ->
                                 leavesOutput evalExpression e).
    { intros e He. apply Hleaves. now right. }
    destruct i as [content|stmt|e]; [| discriminate Hi |].
    + cbn [run]. destruct (readLiteral content) as [s|]; [|reflexivity].
      rewrite (IH ctx (__append (VStr s) out) Hrest Hleaves').
      rewrite (IH ctx (__append (VStr s) []) Hrest Hleaves').
      destruct (run evalExpression hostRun rest ctx []) as [r|err];
        cbn [bind]; [|reflexivity].
      now rewrite (append_from_empty _ out), <- app_assoc.
    + cbn [run]. pose proof (Hleaves e (or_introl eq_refl) ctx out) as He.
      destruct (evalExpression e ctx []) as [[v ctx' out'|k]|err];
        [|destruct He|]; rewrite He; cbn [bind]; [|reflexivity].
      rewrite (IH ctx' (__append v (out ++ out')) Hrest Hleaves').
      rewrite (IH ctx' (__append v out') Hrest Hleaves').
      destruct (run evalExpression hostRun rest ctx' []) as [r|err];
        cbn [bind]; [|reflexivity].
      rewrite (append_from_empty v (out ++ out')).
      rewrite (append_from_empty v out'). now rewrite <- !app_assoc.
Qed.

Lemma run_only_appends_witness :
  run sample.evalExpression (fun _ _ _ => Throw (HostError 0))
      [AppendLiteral (str "Hi "); AppendExpression (str "$.name")]
      (<[str "name" := VStr (str "Ada")]> ∅) (str "<p>")
  = (r <- run sample.evalExpression (fun _ _ _ => Throw (HostError 0))
            [AppendLiteral (str "Hi "); AppendExpression (str "$.name")]
            (<[str "name" := VStr (str "Ada")]> ∅) [];;
     Ok (str "<p>" ++ r)).
Proof.
  apply run_only_appends; [reflexivity|].
  intros e [He|[He|[]]]; [discriminate He|].
  injection He as <-. intros ctx out.
  change (str "$.name") with (36 :: 46 :: str "name").
  cbn [sample.evalExpression]. now rewrite app_nil_r.
Defined.

(** The fragment that empties the output: after it, what was written
    before is gone. *)
Example run_resets_output :
  run sample.evalExpression (fun _ _ _ => Throw (HostError 0))
      [AppendExpression (str "__out = ''"); AppendLiteral (str "final")]
      ∅ (str "draft")
  = Ok (str "final").
Proof. vm_compute. reflexivity. Qed.

(** ** The statement delimiter *)



(** ** Escaping, read back *)

(** X21. Escaping is undone by reading: for every text, the escaped form
    that [compileTemplate] puts between the quotes of a string literal is
    read by the engine as that text, unit for unit; so two texts with the
    same escaped form are the same text, and a text without quotes,
    backslashes and line terminators is its own escaped form. *)
Theorem escaped_text_reads_back :
  forall s : jsstring,
    readLiteral (replaceSpecialChars s) = Some s
    /\ (forall s', replaceSpecialChars s = replaceSpecialChars s' -> s = s')
    /\ (forallb (fun c => negb (reSpecialChars c)) s = true ->
        replaceSpecialChars s = s).
Proof.
  intros s. split; [apply readLiteral_replaceSpecialChars|]. split.
  - intros s' H.
    pose proof (readLiteral_replaceSpecialChars s) as H1.
    rewrite H, readLiteral_replaceSpecialChars in H1. now injection H1.
  - induction s as [|c s IH]; [reflexivity|].
    cbn [forallb]. intros [Hc Hs]%andb_true_iff.
    rewrite replaceSpecialChars_cons. apply negb_true_iff in Hc.
    rewrite Hc. cbn [app]. now rewrite IH.
Qed.

Lemma escaped_text_reads_back_witness :
  replaceSpecialChars (str "<p>plain</p>") = str "<p>plain</p>".
Proof.
  apply (proj2 (proj2 (escaped_text_reads_back (str "<p>plain</p>")))).
  reflexivity.
Defined.
